(** * LifeStream: the organ-allocation routes of the Express server

    A shallow embedding of the server half of [src/App.tsx]: the SQLite
    schema created by [initDb], the statements the route handlers prepare
    and run, the [db.transaction] wrapper, and the JavaScript that filters
    the suggestion list.

    Modelling choices, all read off the source:
    - a table is the list of its rows in insertion order; a [TEXT] column
      holds a string or [NULL], an [INTEGER] column an integer or [NULL];
    - [INTEGER PRIMARY KEY AUTOINCREMENT] keeps, per table, the largest
      rowid ever handed out (SQLite's [sqlite_sequence]);
    - the tables are the ones [initDb] creates: they declare no foreign
      key and no [CHECK] constraint, the only constraint being
      [username TEXT UNIQUE];
    - a prepared statement either runs or throws; [db.transaction] rolls
      the store back when its body throws and rethrows; an exception that
      no [try]/[catch] handles reaches Express, which answers 500;
    - a handler runs to completion before the next one starts (no handler
      of the allocation routes awaits anything), so calls interleave only
      as whole handlers;
    - [authenticate] and [isAdmin] run before the handlers and are outside
      the model: a handler receives the decoded [req.user.id] and the
      fields of [req.body] or [req.params] at the types of the columns they
      are bound to. *)

From Stdlib Require Import ZArith String Ascii DecimalString List Bool Lia.
From Stdlib Require Import Permutation Sorted.
From stdpp Require Import base decidable option list strings.

Local Open Scope Z_scope.
Local Open Scope string_scope.

(** ** Column values *)

(** A [TEXT] value: a string or [NULL]. *)
Definition text := option string.

(** An [INTEGER] value: an integer or [NULL]. *)
Definition int := option Z.

(** SQL [col = ?]: never true when either side is [NULL]. *)
Definition sql_eq_text (col param : text) : bool :=
  match col, param with
  | Some a, Some b => bool_decide (a = b)
  | _, _ => false
  end.

Definition sql_eq_int (col param : int) : bool :=
  match col, param with
  | Some a, Some b => bool_decide (a = b)
  | _, _ => false
  end.

(** SQL [id = ?] on the primary key, which is never [NULL]. *)
Definition sql_eq_id (col : Z) (param : int) : bool :=
  sql_eq_int (Some col) param.

(** ** Rows of the four tables *)

Module User.
Record row := mk {
  id : Z;
  username : text;
  password : text;
  name : text;
  age : int;
  gender : text;
  blood_group : text;
  contact : text;
  role : text
}.
End User.

Module Organ.
Record row := mk {
  id : Z;
  organ_type : text;
  blood_group : text;
  donor_id : int;
  availability_status : text;
  date_added : text
}.

Definition set_availability_status (s : text) (o : row) : row :=
  mk (id o) (organ_type o) (blood_group o) (donor_id o) s (date_added o).

Definition set_blood_group (g : text) (o : row) : row :=
  mk (id o) (organ_type o) g (donor_id o) (availability_status o)
     (date_added o).
End Organ.

Module Request.
Record row := mk {
  id : Z;
  recipient_id : int;
  organ_type : text;
  blood_group : text;
  urgency_level : text;
  status : text;
  date_requested : text;
  admin_note : text
}.

Definition set_status_note (s n : text) (q : row) : row :=
  mk (id q) (recipient_id q) (organ_type q) (blood_group q)
     (urgency_level q) s (date_requested q) n.
End Request.

Module Match.
Record row := mk {
  id : Z;
  donor_id : int;
  recipient_id : int;
  organ_id : int;
  request_id : int;
  organ_type : text;
  matched_on : text;
  status : text
}.
End Match.

(** ** The store *)

Record Db := mkDb {
  users : list User.row;
  organs : list Organ.row;
  organ_requests : list Request.row;
  matches : list Match.row;
  seq_users : Z;
  seq_organs : Z;
  seq_organ_requests : Z;
  seq_matches : Z
}.

Definition max_id (ids : list Z) : Z := foldr Z.max 0 ids.

(** The rowid an [AUTOINCREMENT] table gives its next row: one more than
    the largest rowid the table has ever held. *)
Definition next_rowid (seq : Z) (ids : list Z) : Z :=
  Z.max seq (max_id ids) + 1.

(** ** Exceptions, storage faults and the statement monad *)

Inductive exn :=
| SqliteError (message : string)
| TypeError (message : string).

Definition exn_message (e : exn) : string :=
  match e with SqliteError m => m | TypeError m => m end.

(** The storage layer may refuse a statement (busy, I/O error, disk
    full): [at_statement] counts the statements of the call that still run
    before the one that throws. *)
Record fault := mkFault {
  at_statement : nat;
  fault_message : string
}.

Inductive outcome (A : Type) :=
| Returned (a : A) (db : Db) (rest : option fault)
| Thrown (e : exn) (db : Db).
Arguments Returned {A} a db rest.
Arguments Thrown {A} e db.

Definition M (A : Type) : Type := option fault -> Db -> outcome A.

Definition ret {A} (a : A) : M A := fun flt db => Returned a db flt.

Definition bind {A B} (m : M A) (k : A -> M B) : M B :=
  fun flt db =>
    match m flt db with
    | Returned a db' flt' => k a flt' db'
    | Thrown e db' => Thrown e db'
    end.

Definition throw {A} (e : exn) : M A := fun _ db => Thrown e db.

Notation "x <- m ;; k" := (bind m (fun x => k))
  (at level 100, m at next level, right associativity).
Notation "m ;;; k" := (bind m (fun _ => k))
  (at level 100, right associativity).

Definition tick (flt : option fault) : option fault :=
  match flt with
  | Some (mkFault (S n) msg) => Some (mkFault n msg)
  | other => other
  end.

(** [db.prepare(sql).run(...)]: the statement throws when the storage
    fault is due or when a constraint fails, and changes nothing then. *)
Definition statement {A} (f : Db -> exn + (A * Db)) : M A :=
  fun flt db =>
    match flt with
    | Some (mkFault O msg) => Thrown (SqliteError msg) db
    | _ =>
        match f db with
        | inl e => Thrown e db
        | inr (a, db') => Returned a db' (tick flt)
        end
    end.

(** [db.transaction(fn)()]: commit when [fn] returns, roll back to the
    store at [BEGIN] and rethrow when it throws. *)
Definition transaction {A} (body : M A) : M A :=
  fun flt db =>
    match body flt db with
    | Returned a db' flt' => Returned a db' flt'
    | Thrown e _ => Thrown e db
    end.

(** [try { body } catch (err) { handler(err) }]. *)
Definition try_catch {A} (body : M A) (handler : exn -> M A) : M A :=
  fun flt db =>
    match body flt db with
    | Returned a db' flt' => Returned a db' flt'
    | Thrown e db' => handler e None db'
    end.

(** An uncaught exception reaches Express's default error handler. *)
Inductive payload :=
| JsonId (id : Z)
| JsonSuccess
| JsonError (error : string)
| JsonSuggestions (rows : list (Organ.row * text * text))
| ExpressError (e : exn).

Record response := Res {
  status_code : Z;
  body : payload
}.

(** One call of a handler against the store. *)
Definition serve (h : M response) (flt : option fault) (db : Db)
  : response * Db :=
  match h flt db with
  | Returned r db' _ => (r, db')
  | Thrown e db' => (Res 500 (ExpressError e), db')
  end.

(** ** The statements the routes prepare *)

Definition with_users (l : list User.row) (s : Z) (db : Db) : Db :=
  mkDb l (organs db) (organ_requests db) (matches db)
       s (seq_organs db) (seq_organ_requests db) (seq_matches db).

Definition with_organs (l : list Organ.row) (s : Z) (db : Db) : Db :=
  mkDb (users db) l (organ_requests db) (matches db)
       (seq_users db) s (seq_organ_requests db) (seq_matches db).

Definition with_organ_requests (l : list Request.row) (s : Z) (db : Db) : Db :=
  mkDb (users db) (organs db) l (matches db)
       (seq_users db) (seq_organs db) s (seq_matches db).

Definition with_matches (l : list Match.row) (s : Z) (db : Db) : Db :=
  mkDb (users db) (organs db) (organ_requests db) l
       (seq_users db) (seq_organs db) (seq_organ_requests db) s.

(** [UPDATE t SET ... WHERE cond]: every row the condition selects is
    rewritten in place, the others stay. *)
Definition update_where {A} (cond : A -> bool) (f : A -> A) (l : list A)
  : list A :=
  map (fun r => if cond r then f r else r) l.

(** [DELETE FROM t WHERE cond]. *)
Definition delete_where {A} (cond : A -> bool) (l : list A) : list A :=
  List.filter (fun r => negb (cond r)) l.

(** [INSERT INTO users (username, password, name, age, gender,
    blood_group, contact, role) VALUES (?, ?, ?, ?, ?, ?, ?, ?)]. *)
Definition insert_user (username password name : text) (age : int)
    (gender blood_group contact role : text) : M Z :=
  statement (fun db =>
    if existsb (fun u => sql_eq_text (User.username u) username) (users db)
    then inl (SqliteError "UNIQUE constraint failed: users.username")
    else
      let i := next_rowid (seq_users db) (map User.id (users db)) in
      inr (i, with_users
                (users db ++ [User.mk i username password name age gender
                                      blood_group contact role]) i db)).

(** [INSERT INTO organs (organ_type, blood_group, donor_id) VALUES
    (?, ?, ?)]: [availability_status] takes its default ['AVAILABLE'],
    [date_added] the current time. *)
Definition insert_organ (now : string) (organ_type blood_group : text)
    (donor_id : int) : M Z :=
  statement (fun db =>
    let i := next_rowid (seq_organs db) (map Organ.id (organs db)) in
    inr (i, with_organs
              (organs db ++ [Organ.mk i organ_type blood_group donor_id
                                      (Some "AVAILABLE") (Some now)]) i db)).

(** [INSERT INTO organ_requests (recipient_id, organ_type, blood_group,
    urgency_level) VALUES (?, ?, ?, ?)]: [status] takes its default
    ['PENDING'], [admin_note] is [NULL]. *)
Definition insert_organ_request (now : string) (recipient_id : int)
    (organ_type blood_group urgency_level : text) : M Z :=
  statement (fun db =>
    let i := next_rowid (seq_organ_requests db)
                        (map Request.id (organ_requests db)) in
    inr (i, with_organ_requests
              (organ_requests db ++
                 [Request.mk i recipient_id organ_type blood_group
                             urgency_level (Some "PENDING") (Some now) None])
              i db)).

(** [UPDATE organ_requests SET status = ?, admin_note = ? WHERE id = ?]. *)
Definition update_request_status (status admin_note : text) (id : int)
  : M unit :=
  statement (fun db =>
    inr (tt, with_organ_requests
               (update_where (fun q => sql_eq_id (Request.id q) id)
                             (Request.set_status_note status admin_note)
                             (organ_requests db))
               (seq_organ_requests db) db)).

(** [SELECT * FROM organ_requests WHERE id = ?] with [.get]: the first
    row, or [undefined]. *)
Definition find_request (id : int) (db : Db) : option Request.row :=
  head (List.filter (fun q => sql_eq_id (Request.id q) id)
                    (organ_requests db)).

Definition select_request (id : int) : M (option Request.row) :=
  statement (fun db => inr (find_request id db, db)).

(** [SELECT organs.*, users.name as donor_name, users.blood_group as
    donor_blood_group FROM organs JOIN users ON organs.donor_id = users.id
    WHERE organ_type = ? AND availability_status = 'AVAILABLE']: a result
    row is the organ row, [donor_name] and [donor_blood_group]. *)
Definition available_organs (organ_type : text) (db : Db)
  : list (Organ.row * text * text) :=
  flat_map
    (fun o =>
       if sql_eq_text (Organ.organ_type o) organ_type
          && sql_eq_text (Organ.availability_status o) (Some "AVAILABLE")
       then
         map (fun u => (o, User.name u, User.blood_group u))
             (List.filter
                (fun u => sql_eq_int (Organ.donor_id o) (Some (User.id u)))
                (users db))
       else [])
    (organs db).

Definition select_available_organs (organ_type : text)
  : M (list (Organ.row * text * text)) :=
  statement (fun db => inr (available_organs organ_type db, db)).

(** [INSERT INTO matches (donor_id, recipient_id, organ_id, request_id,
    organ_type, status) VALUES (?, ?, ?, ?, ?, 'COMPLETED')]. *)
Definition insert_match (now : string)
    (donor_id recipient_id organ_id request_id : int) (organ_type : text)
  : M Z :=
  statement (fun db =>
    let i := next_rowid (seq_matches db) (map Match.id (matches db)) in
    inr (i, with_matches
              (matches db ++
                 [Match.mk i donor_id recipient_id organ_id request_id
                           organ_type (Some now) (Some "COMPLETED")])
              i db)).

(** [UPDATE organs SET availability_status = 'MATCHED' WHERE id = ?]. *)
Definition update_organ_matched (organ_id : int) : M unit :=
  statement (fun db =>
    inr (tt, with_organs
               (update_where (fun o => sql_eq_id (Organ.id o) organ_id)
                             (Organ.set_availability_status (Some "MATCHED"))
                             (organs db))
               (seq_organs db) db)).

(** [UPDATE organ_requests SET status = 'APPROVED', admin_note = 'Matched
    with compatible donor' WHERE id = ?]. *)
Definition update_request_approved (request_id : int) : M unit :=
  update_request_status (Some "APPROVED")
                        (Some "Matched with compatible donor") request_id.

(** The four [DELETE] statements of the user-removal transaction. *)
Definition delete_matches_of (id : int) : M unit :=
  statement (fun db =>
    inr (tt, with_matches
               (delete_where
                  (fun m => sql_eq_int (Match.donor_id m) id
                            || sql_eq_int (Match.recipient_id m) id)
                  (matches db))
               (seq_matches db) db)).

Definition delete_requests_of (id : int) : M unit :=
  statement (fun db =>
    inr (tt, with_organ_requests
               (delete_where
                  (fun q => sql_eq_int (Request.recipient_id q) id)
                  (organ_requests db))
               (seq_organ_requests db) db)).

Definition delete_organs_of (id : int) : M unit :=
  statement (fun db =>
    inr (tt, with_organs
               (delete_where (fun o => sql_eq_int (Organ.donor_id o) id)
                             (organs db))
               (seq_organs db) db)).

Definition delete_user (id : int) : M unit :=
  statement (fun db =>
    inr (tt, with_users
               (delete_where (fun u => sql_eq_id (User.id u) id) (users db))
               (seq_users db) db)).

(** ** The JavaScript of the suggestion filter *)

(** What a property read on the [bloodCompatibility] object literal can
    give: [undefined], one of its eight arrays, or a member inherited from
    [Object.prototype] (the literal has the ordinary prototype). *)
Inductive jsval :=
| JsUndefined
| JsArray (items : list string)
| JsInherited (key : string).

Definition bloodCompatibility : list (string * list string) :=
  [ ("O-", ["O-"; "O+"; "A-"; "A+"; "B-"; "B+"; "AB-"; "AB+"]);
    ("O+", ["O+"; "A+"; "B+"; "AB+"]);
    ("A-", ["A-"; "A+"; "AB-"; "AB+"]);
    ("A+", ["A+"; "AB+"]);
    ("B-", ["B-"; "B+"; "AB-"; "AB+"]);
    ("B+", ["B+"; "AB+"]);
    ("AB-", ["AB-"; "AB+"]);
    ("AB+", ["AB+"]) ].

(** The property names of [Object.prototype]. *)
Definition object_prototype_keys : list string :=
  [ "constructor"; "__defineGetter__"; "__defineSetter__";
    "hasOwnProperty"; "__lookupGetter__"; "__lookupSetter__";
    "isPrototypeOf"; "propertyIsEnumerable"; "toString"; "valueOf";
    "__proto__"; "toLocaleString" ].

Fixpoint own_property (key : string) (o : list (string * list string))
  : option (list string) :=
  match o with
  | [] => None
  | (k, v) :: rest => if String.eqb k key then Some v else own_property key rest
  end.

(** A column value used as a property key: [null] reads as ["null"]. *)
Definition property_key (v : text) : string :=
  match v with Some s => s | None => "null" end.

(** [bloodCompatibility[key]]: own properties first, then the prototype. *)
Definition js_get (o : list (string * list string)) (key : text) : jsval :=
  let k := property_key key in
  match own_property k o with
  | Some a => JsArray a
  | None =>
      if existsb (String.eqb k) object_prototype_keys
      then JsInherited k
      else JsUndefined
  end.

(** [v || []]: arrays, functions and objects are truthy. *)
Definition js_or_empty (v : jsval) : jsval :=
  match v with
  | JsUndefined => JsArray []
  | other => other
  end.

(** [bloodCompatibility[organ.donor_blood_group] || []]. *)
Definition compatibleRecipients (donor_blood_group : text) : jsval :=
  js_or_empty (js_get bloodCompatibility donor_blood_group).

(** [v.includes(x)]: only an array has the method. *)
Definition js_includes (v : jsval) (x : text) : exn + bool :=
  match v with
  | JsArray items =>
      inr (match x with
           | Some s => existsb (String.eqb s) items
           | None => false
           end)
  | JsInherited _ =>
      inl (TypeError "compatibleRecipients.includes is not a function")
  | JsUndefined =>
      inl (TypeError "Cannot read properties of undefined (reading 'includes')")
  end.

(** The callback of [availableOrgans.filter]. *)
Definition is_suggestion (request : Request.row)
    (organ : Organ.row * text * text) : exn + bool :=
  js_includes (compatibleRecipients (snd organ)) (Request.blood_group request).

(** [Array.prototype.filter] with a callback that may throw: elements are
    visited in order and the first exception ends the call. *)
Fixpoint js_filter {A} (p : A -> exn + bool) (l : list A) : exn + list A :=
  match l with
  | [] => inr []
  | x :: rest =>
      match p x with
      | inl e => inl e
      | inr keep =>
          match js_filter p rest with
          | inl e => inl e
          | inr kept => inr (if keep then x :: kept else kept)
          end
      end
  end.

Definition js {A} (r : exn + A) : M A :=
  match r with
  | inl e => throw e
  | inr a => ret a
  end.

(** ** The route handlers *)

(** [POST /api/auth/register]; [password] is the bcrypt hash. *)
Definition post_auth_register (username password name : text) (age : int)
    (gender blood_group contact role : text) : M response :=
  try_catch
    (id <- insert_user username password name age gender blood_group
                       contact role ;;
     ret (Res 200 (JsonId id)))
    (fun err => ret (Res 400 (JsonError (exn_message err)))).

(** [POST /api/organs]. *)
Definition post_organs (now : string) (user_id : int)
    (organ_type blood_group : text) : M response :=
  id <- insert_organ now organ_type blood_group user_id ;;
  ret (Res 200 (JsonId id)).

(** [POST /api/requests]. *)
Definition post_requests (now : string) (user_id : int)
    (organ_type blood_group urgency_level : text) : M response :=
  id <- insert_organ_request now user_id organ_type blood_group
                             urgency_level ;;
  ret (Res 200 (JsonId id)).

(** [POST /api/admin/requests/:id/status]. *)
Definition post_admin_requests_status (id : int) (status admin_note : text)
  : M response :=
  update_request_status status admin_note id ;;;
  ret (Res 200 JsonSuccess).

(** [GET /api/admin/matches/suggest/:requestId]. *)
Definition get_admin_matches_suggest (requestId : int) : M response :=
  found <- select_request requestId ;;
  match found with
  | None => ret (Res 404 (JsonError "Request not found"))
  | Some request =>
      availableOrgans <- select_available_organs
                           (Request.organ_type request) ;;
      suggestions <- js (js_filter (is_suggestion request) availableOrgans) ;;
      ret (Res 200 (JsonSuggestions suggestions))
  end.

(** [POST /api/admin/matches]. *)
Definition post_admin_matches (now : string)
    (donor_id recipient_id organ_id request_id : int) (organ_type : text)
  : M response :=
  try_catch
    (transaction
       (insert_match now donor_id recipient_id organ_id request_id
                     organ_type ;;;
        update_organ_matched organ_id ;;;
        update_request_approved request_id) ;;;
     ret (Res 200 JsonSuccess))
    (fun err => ret (Res 400 (JsonError (exn_message err)))).

(** [DELETE /api/admin/users/:id]. *)
Definition delete_admin_users (id : int) : M response :=
  try_catch
    (transaction
       (delete_matches_of id ;;;
        delete_requests_of id ;;;
        delete_organs_of id ;;;
        delete_user id) ;;;
     ret (Res 200 JsonSuccess))
    (fun err => ret (Res 400 (JsonError (exn_message err)))).

(** ** The server as a transition system *)

(** The calls that touch the allocation tables; the remaining routes run
    [SELECT] statements only. *)
Inductive call :=
| Register (username password name : text) (age : int)
           (gender blood_group contact role : text)
| AddOrgan (user_id : int) (organ_type blood_group : text)
| AddRequest (user_id : int) (organ_type blood_group urgency_level : text)
| SetRequestStatus (id : int) (status admin_note : text)
| Suggest (requestId : int)
| Allocate (donor_id recipient_id organ_id request_id : int)
           (organ_type : text)
| RemoveUser (id : int).

Definition handler (now : string) (c : call) : M response :=
  match c with
  | Register u p n a g b ct r => post_auth_register u p n a g b ct r
  | AddOrgan uid t b => post_organs now uid t b
  | AddRequest uid t b u => post_requests now uid t b u
  | SetRequestStatus id s n => post_admin_requests_status id s n
  | Suggest rid => get_admin_matches_suggest rid
  | Allocate d r o q t => post_admin_matches now d r o q t
  | RemoveUser id => delete_admin_users id
  end.

(** An incoming call: the clock reading, the storage fault (if any) that
    strikes during it, and the call. *)
Record event := Event {
  ev_now : string;
  ev_fault : option fault;
  ev_call : call
}.

Definition step (e : event) (db : Db) : response * Db :=
  serve (handler (ev_now e) (ev_call e)) (ev_fault e) db.

(** The responses of a sequence of calls, handled one after the other,
    and the store they leave. *)
Fixpoint run (es : list event) (db : Db) : list response * Db :=
  match es with
  | [] => ([], db)
  | e :: rest =>
      let (r, db') := step e db in
      let (rs, db'') := run rest db' in
      (r :: rs, db'')
  end.

(** The store [initDb] leaves on a fresh database file: the four empty
    tables and the default admin user. *)
Definition init_db (adminPassword : string) : Db :=
  mkDb [User.mk 1 (Some "admin") (Some adminPassword) (Some "System Admin")
                (Some 35) (Some "Male") (Some "O+") (Some "1234567890")
                (Some "ADMIN")]
       [] [] [] 1 0 0 0.

Inductive reachable : Db -> Prop :=
| reachable_init adminPassword : reachable (init_db adminPassword)
| reachable_step e db : reachable db -> reachable (snd (step e db)).

(** ** Sample stores, built by running calls from [init_db] *)

Definition at_noon (c : call) : event := Event "2024-05-01 12:00:00" None c.

(** One donor (group O-), two recipients, one kidney on offer and two
    pending kidney requests. *)
Definition ward_calls : list event :=
  [ at_noon (Register (Some "donor1") (Some "$2a$10$d") (Some "John Doe")
                      (Some 28) (Some "Male") (Some "O-") (Some "9876543210")
                      (Some "DONOR"));
    at_noon (Register (Some "recipient1") (Some "$2a$10$r") (Some "Alice Brown")
                      (Some 45) (Some "Female") (Some "AB+")
                      (Some "1112223333") (Some "RECIPIENT"));
    at_noon (Register (Some "recipient2") (Some "$2a$10$s") (Some "Bob Wilson")
                      (Some 50) (Some "Male") (Some "A+") (Some "4445556666")
                      (Some "RECIPIENT"));
    at_noon (AddOrgan (Some 2) (Some "KIDNEY") (Some "O-"));
    at_noon (AddRequest (Some 3) (Some "KIDNEY") (Some "AB+") (Some "CRITICAL"));
    at_noon (AddRequest (Some 4) (Some "KIDNEY") (Some "A+") (Some "HIGH")) ].

Definition ward : Db :=
  Eval vm_compute in snd (run ward_calls (init_db "$2a$10$a")).

(** The operator approves organ 1 for request 1, then for request 2. *)
Definition first_approval : event :=
  at_noon (Allocate (Some 2) (Some 3) (Some 1) (Some 1) (Some "KIDNEY")).

Definition second_approval : event :=
  at_noon (Allocate (Some 2) (Some 4) (Some 1) (Some 2) (Some "KIDNEY")).

Definition ward_after_approval : Db :=
  Eval vm_compute in snd (step first_approval ward).

(** A donor registered with the blood group ["constructor"] offers a
    kidney; a recipient of group A+ asks for one. *)
Definition odd_group_calls : list event :=
  [ at_noon (Register (Some "donor9") (Some "$2a$10$d") (Some "Eve Moss")
                      (Some 30) (Some "Female") (Some "constructor")
                      (Some "5550001111") (Some "DONOR"));
    at_noon (Register (Some "recipient9") (Some "$2a$10$r") (Some "Dan Hale")
                      (Some 41) (Some "Male") (Some "A+") (Some "5550002222")
                      (Some "RECIPIENT"));
    at_noon (AddOrgan (Some 2) (Some "KIDNEY") (Some "A+"));
    at_noon (AddRequest (Some 3) (Some "KIDNEY") (Some "A+") (Some "LOW")) ].

Definition odd_group_ward : Db :=
  Eval vm_compute in snd (run odd_group_calls (init_db "$2a$10$a")).

(** ** Properties used to state the results *)

(** Number of [matches] rows whose [organ_id] is [o]. *)
Definition matches_of_organ (o : Z) (db : Db) : nat :=
  length (List.filter (fun m => sql_eq_int (Match.organ_id m) (Some o))
                      (matches db)).

(** Every row of [organs] with id [i] reads [MATCHED]. *)
Definition organ_matched (i : Z) (db : Db) : Prop :=
  forall o, In o (organs db) -> Organ.id o = i ->
            Organ.availability_status o = Some "MATCHED".

(** Every row of [organ_requests] with id [i] reads [APPROVED] and carries
    the note the allocation writes. *)
Definition request_approved (i : Z) (db : Db) : Prop :=
  forall q, In q (organ_requests db) -> Request.id q = i ->
            Request.status q = Some "APPROVED" /\
            Request.admin_note q = Some "Matched with compatible donor".

(** No rowid of the [organs] table exceeds the table's sequence. *)
Definition organ_ids_bounded (db : Db) : Prop :=
  forall o, In o (organs db) -> Organ.id o <= seq_organs db.

(** The lifecycle invariant of the [organs] table: rowids stay below the
    sequence and, when a donation [i] is tracked, its rows read [MATCHED]
    and the sequence has passed [i]. *)
Definition organs_inv (tracked : option Z) (db : Db) : Prop :=
  organ_ids_bounded db /\
  match tracked with
  | Some i => i <= seq_organs db /\ organ_matched i db
  | None => True
  end.

(** [P] survives every way a computation can end. *)
Definition preserves (P : Db -> Prop) {A} (m : M A) : Prop :=
  forall flt db, P db ->
    match m flt db with
    | Returned _ db' _ => P db'
    | Thrown _ db' => P db'
    end.

(** The message of the storage fault, when it strikes one of the first
    [n] statements of a call. *)
Definition strikes_within (n : nat) (flt : option fault) : option string :=
  match flt with
  | Some (mkFault k msg) => if (k <? n)%nat then Some msg else None
  | None => None
  end.

(** The eight ABO/Rh blood groups. *)
Definition blood_groups : list string :=
  ["O-"; "O+"; "A-"; "A+"; "B-"; "B+"; "AB-"; "AB+"].

(** The status of the first [organ_requests] row with id [i]. *)
Definition request_status (i : Z) (db : Db) : option text :=
  Request.status <$> find_request (Some i) db.

(** Rewrite the [blood_group] column of every [organs] row. *)
Definition relabel_organs (g : Organ.row -> text) (db : Db) : Db :=
  with_organs (map (fun o => Organ.set_blood_group (g o) o) (organs db))
              (seq_organs db) db.

Definition relabel_row (g : Organ.row -> text)
    (r : Organ.row * text * text) : Organ.row * text * text :=
  (Organ.set_blood_group (g (fst (fst r))) (fst (fst r)), snd (fst r), snd r).

Definition relabel_payload (g : Organ.row -> text) (p : payload) : payload :=
  match p with
  | JsonSuggestions rows => JsonSuggestions (map (relabel_row g) rows)
  | other => other
  end.

Definition relabel_response (g : Organ.row -> text) (r : response)
  : response :=
  Res (status_code r) (relabel_payload g (body r)).

(** * The remaining routes, the start-up code and the helpers *)

(** ** Resolving column names at [db.prepare] *)

(** The columns of the tables, as [initDb] declares them. *)
Definition users_columns : list string :=
  ["id"; "username"; "password"; "name"; "age"; "gender"; "blood_group";
   "contact"; "role"].

Definition organs_columns : list string :=
  ["id"; "organ_type"; "blood_group"; "donor_id"; "availability_status";
   "date_added"].

Inductive resolution :=
| Resolved (table : string)
| NoSuchColumn
| AmbiguousColumn.

(** An unqualified column name resolves to the one table of the [FROM]
    clause that has it. *)
Definition resolve_column (from : list (string * list string))
    (column : string) : resolution :=
  match List.filter (fun t => existsb (String.eqb column) (snd t)) from with
  | [] => NoSuchColumn
  | [t] => Resolved (fst t)
  | _ => AmbiguousColumn
  end.

(** [db.prepare(sql)] throws when a column of the [WHERE] clause does not
    resolve; otherwise each column comes with its table. *)
Fixpoint resolve_all (from : list (string * list string))
    (columns : list string) : exn + list (string * string) :=
  match columns with
  | [] => inr []
  | c :: rest =>
      match resolve_column from c with
      | Resolved t =>
          match resolve_all from rest with
          | inl e => inl e
          | inr l => inr ((t, c) :: l)
          end
      | NoSuchColumn => inl (SqliteError ("no such column: " ++ c))
      | AmbiguousColumn => inl (SqliteError ("ambiguous column name: " ++ c))
      end
  end.

(** The [TEXT] columns of an [organs] row and of a [users] row, by name. *)
Definition organ_cell (column : string) (o : Organ.row) : text :=
  if String.eqb column "organ_type" then Organ.organ_type o
  else if String.eqb column "blood_group" then Organ.blood_group o
  else if String.eqb column "availability_status"
       then Organ.availability_status o
  else if String.eqb column "date_added" then Organ.date_added o
  else None.

Definition user_cell (column : string) (u : User.row) : text :=
  if String.eqb column "username" then User.username u
  else if String.eqb column "password" then User.password u
  else if String.eqb column "name" then User.name u
  else if String.eqb column "gender" then User.gender u
  else if String.eqb column "blood_group" then User.blood_group u
  else if String.eqb column "contact" then User.contact u
  else if String.eqb column "role" then User.role u
  else None.

Definition joined_cell (tc : string * string) (o : Organ.row) (u : User.row)
  : text :=
  if String.eqb (fst tc) "organs" then organ_cell (snd tc) o
  else user_cell (snd tc) u.

(** ** Listing routes *)

(** [if (v)] on a query-string value: absent and empty are falsy. *)
Definition js_truthy (v : option string) : bool :=
  match v with
  | Some s => negb (String.eqb s "")
  | None => false
  end.

(** The [WHERE] clause [GET /api/organs] builds: the status test, then
    [AND organ_type = ?] and [AND blood_group = ?] for the filters given. *)
Definition organs_conditions (type bloodGroup : option string)
  : list (string * string) :=
  [("availability_status", "AVAILABLE")]
    ++ (if js_truthy type then [("organ_type", default "" type)] else [])
    ++ (if js_truthy bloodGroup
        then [("blood_group", default "" bloodGroup)] else []).

(** [GET /api/organs]: [SELECT organs.*, users.name as donor_name FROM
    organs JOIN users ON organs.donor_id = users.id WHERE ...]. *)
Definition get_organs (type bloodGroup : option string)
  : M (list (Organ.row * text)) :=
  let conditions := organs_conditions type bloodGroup in
  resolved <- js (resolve_all [("organs", organs_columns);
                               ("users", users_columns)]
                              (map fst conditions)) ;;
  statement (fun db =>
    inr (flat_map
           (fun o =>
              map (fun u => (o, User.name u))
                  (List.filter
                     (fun u =>
                        sql_eq_int (Organ.donor_id o) (Some (User.id u))
                        && forallb
                             (fun rc => sql_eq_text
                                          (joined_cell (fst rc) o u)
                                          (Some (snd rc)))
                             (combine resolved (map snd conditions)))
                     (users db)))
           (organs db), db)).

(** [ORDER BY]: insertion sort by the comparison of the clause; rows that
    compare equal keep the order of the scan (SQL leaves it open). *)
Fixpoint insert_by {A} (before : A -> A -> bool) (x : A) (l : list A)
  : list A :=
  match l with
  | [] => [x]
  | y :: rest =>
      if before x y then x :: l else y :: insert_by before x rest
  end.

Definition order_by {A} (before : A -> A -> bool) (l : list A) : list A :=
  foldr (insert_by before) [] l.

(** SQLite's order on values of one type: [NULL] is below everything;
    text compares bytewise. *)
Definition int_le (a b : int) : bool :=
  match a, b with
  | None, _ => true
  | Some _, None => false
  | Some x, Some y => Z.leb x y
  end.

Definition text_le (a b : text) : bool :=
  match a, b with
  | None, _ => true
  | Some _, None => false
  | Some x, Some y => String.leb x y
  end.

(** [CASE urgency_level WHEN 'CRITICAL' THEN 1 WHEN 'HIGH' THEN 2 WHEN
    'MEDIUM' THEN 3 WHEN 'LOW' THEN 4 END]: [NULL] when nothing matches. *)
Definition urgency_rank (urgency_level : text) : int :=
  if sql_eq_text urgency_level (Some "CRITICAL") then Some 1
  else if sql_eq_text urgency_level (Some "HIGH") then Some 2
  else if sql_eq_text urgency_level (Some "MEDIUM") then Some 3
  else if sql_eq_text urgency_level (Some "LOW") then Some 4
  else None.

(** [ORDER BY CASE ... END ASC, date_requested DESC]. *)
Definition admin_requests_before (a b : Request.row * text) : bool :=
  let ra := urgency_rank (Request.urgency_level (fst a)) in
  let rb := urgency_rank (Request.urgency_level (fst b)) in
  if negb (int_le rb ra) then true
  else if negb (int_le ra rb) then false
  else text_le (Request.date_requested (fst b))
               (Request.date_requested (fst a)).

(** [GET /api/admin/requests]: [SELECT organ_requests.*, users.name as
    recipient_name FROM organ_requests JOIN users ON
    organ_requests.recipient_id = users.id ORDER BY ...]. *)
Definition admin_requests_rows (db : Db) : list (Request.row * text) :=
  flat_map
    (fun q =>
       map (fun u => (q, User.name u))
           (List.filter
              (fun u => sql_eq_int (Request.recipient_id q) (Some (User.id u)))
              (users db)))
    (organ_requests db).

Definition get_admin_requests : M (list (Request.row * text)) :=
  statement (fun db =>
    inr (order_by admin_requests_before (admin_requests_rows db), db)).

(** [GET /api/requests/my]: [SELECT * FROM organ_requests WHERE
    recipient_id = ? ORDER BY date_requested DESC]. *)
Definition get_requests_my (user_id : int) : M (list Request.row) :=
  statement (fun db =>
    inr (order_by
           (fun a b => text_le (Request.date_requested b)
                               (Request.date_requested a))
           (List.filter (fun q => sql_eq_int (Request.recipient_id q) user_id)
                        (organ_requests db)), db)).

(** [GET /api/admin/matches]: [SELECT matches.*, d.name as donor_name,
    r.name as recipient_name FROM matches JOIN users d ON matches.donor_id
    = d.id JOIN users r ON matches.recipient_id = r.id ORDER BY matched_on
    DESC]. *)
Definition admin_matches_rows (db : Db) : list (Match.row * text * text) :=
  flat_map
    (fun m =>
       flat_map
         (fun d =>
            map (fun r => (m, User.name d, User.name r))
                (List.filter
                   (fun r => sql_eq_int (Match.recipient_id m)
                                        (Some (User.id r)))
                   (users db)))
         (List.filter
            (fun d => sql_eq_int (Match.donor_id m) (Some (User.id d)))
            (users db)))
    (matches db).

Definition get_admin_matches : M (list (Match.row * text * text)) :=
  statement (fun db =>
    inr (order_by
           (fun a b => text_le (Match.matched_on (fst (fst b)))
                               (Match.matched_on (fst (fst a))))
           (admin_matches_rows db), db)).

(** [GET /api/admin/stats]: four [SELECT COUNT( * )] statements. *)
Record stats := Stats {
  donors : Z;
  recipients : Z;
  pending : Z;
  matches_count : Z
}.

Definition count_where {A} (cond : A -> bool) (l : list A) : Z :=
  Z.of_nat (length (List.filter cond l)).

Definition get_admin_stats : M stats :=
  totalDonors <- statement (fun db =>
    inr (count_where (fun u => sql_eq_text (User.role u) (Some "DONOR"))
                     (users db), db)) ;;
  totalRecipients <- statement (fun db =>
    inr (count_where (fun u => sql_eq_text (User.role u) (Some "RECIPIENT"))
                     (users db), db)) ;;
  pendingRequests <- statement (fun db =>
    inr (count_where (fun q => sql_eq_text (Request.status q) (Some "PENDING"))
                     (organ_requests db), db)) ;;
  matchedOrgans <- statement (fun db =>
    inr (count_where (fun _ => true) (matches db), db)) ;;
  ret (Stats totalDonors totalRecipients pendingRequests matchedOrgans).

(** SQL [col != ?]: never true when either side is [NULL]. *)
Definition sql_ne_text (col param : text) : bool :=
  match col, param with
  | Some a, Some b => negb (bool_decide (a = b))
  | _, _ => false
  end.

(** The columns [GET /api/admin/users] selects. *)
Module Account.
Record row := mk {
  id : Z;
  username : text;
  name : text;
  role : text;
  blood_group : text;
  contact : text
}.
End Account.

(** [GET /api/admin/users]: [SELECT id, username, name, role, blood_group,
    contact FROM users WHERE role != 'ADMIN']. *)
Definition get_admin_users : M (list Account.row) :=
  statement (fun db =>
    inr (map (fun u => Account.mk (User.id u) (User.username u) (User.name u)
                                  (User.role u) (User.blood_group u)
                                  (User.contact u))
             (List.filter (fun u => sql_ne_text (User.role u) (Some "ADMIN"))
                          (users db)), db)).

(** ** Authentication, authorisation and the router *)

(** The payload [jwt.sign] is given at login and [jwt.verify] gives back. *)
Record claims := Claims {
  claim_id : int;
  claim_username : text;
  claim_role : text
}.

(** [s.split(sep)] for a one-character separator. *)
Fixpoint split_on (sep : ascii) (s : string) : list string :=
  match s with
  | EmptyString => [EmptyString]
  | String c rest =>
      if Ascii.eqb c sep then EmptyString :: split_on sep rest
      else
        match split_on sep rest with
        | [] => [String c EmptyString]
        | w :: ws => String c w :: ws
        end
  end.

(** [req.headers.authorization?.split(" ")[1]]. *)
Definition bearer_token (authorization : option string) : option string :=
  match authorization with
  | Some header => nth_error (split_on " "%char header) 1
  | None => None
  end.

Inductive gate :=
| Pass (user : claims)
| Reject (status : Z) (error : string).

(** The columns of a user that login and [GET /api/auth/me] send back:
    all but the password. *)
Module Profile.
Record row := mk {
  id : Z;
  username : text;
  name : text;
  age : int;
  gender : text;
  blood_group : text;
  contact : text;
  role : text
}.
End Profile.

Definition profile_of (u : User.row) : Profile.row :=
  Profile.mk (User.id u) (User.username u) (User.name u) (User.age u)
             (User.gender u) (User.blood_group u) (User.contact u)
             (User.role u).

(** A request to [apiRouter]: the route with the fields of its
    parameters, query string or body; [hashedPassword] is the body's
    password once [bcrypt.hash] has run. *)
Inductive api_request :=
| GetHealth
| GetPing
| PostAuthRegister (username hashedPassword name : text) (age : int)
                   (gender blood_group contact role : text)
| PostAuthLogin (username password : text)
| GetAuthMe
| GetOrgans (type bloodGroup : option string)
| PostOrgans (organ_type blood_group : text)
| PostRequests (organ_type blood_group urgency_level : text)
| GetRequestsMy
| GetAdminStats
| GetAdminRequests
| PostAdminRequestsStatus (id : int) (status admin_note : text)
| GetAdminMatchesSuggest (requestId : int)
| PostAdminMatches (donor_id recipient_id organ_id request_id : int)
                   (organ_type : text)
| GetAdminMatches
| GetAdminUsers
| DeleteAdminUsers (id : int).

Inductive api_payload :=
| Body (p : payload)
| Health
| Pong
| LoginOk (token : string) (user : Profile.row)
| Me (user : option Profile.row)
| OrgansListed (rows : list (Organ.row * text))
| MyRequests (rows : list Request.row)
| StatsOf (s : stats)
| AdminRequests (rows : list (Request.row * text))
| AdminMatches (rows : list (Match.row * text * text))
| AdminUsers (rows : list Account.row).

Record api_response := ApiRes {
  api_status : Z;
  api_body : api_payload
}.

(** What becomes of a request: a response, or an exception that no
    [try]/[catch] of the server handles. *)
Inductive api_outcome :=
| Answered (r : api_response)
| Uncaught (e : exn).

Definition is_admin_route (req : api_request) : bool :=
  match req with
  | GetAdminStats | GetAdminRequests | PostAdminRequestsStatus _ _ _
  | GetAdminMatchesSuggest _ | PostAdminMatches _ _ _ _ _ | GetAdminMatches
  | GetAdminUsers | DeleteAdminUsers _ => true
  | _ => false
  end.

Definition is_get_route (req : api_request) : bool :=
  match req with
  | GetHealth | GetPing | GetAuthMe | GetOrgans _ _ | GetRequestsMy
  | GetAdminStats | GetAdminRequests | GetAdminMatchesSuggest _
  | GetAdminMatches | GetAdminUsers => true
  | _ => false
  end.

Definition is_open_route (req : api_request) : bool :=
  match req with
  | GetHealth | GetPing | PostAuthRegister _ _ _ _ _ _ _ _
  | PostAuthLogin _ _ => true
  | _ => false
  end.

Section Auth.

(** [jwt.verify(token, JWT_SECRET)]: the decoded payload, or nothing when
    it throws. *)
Variable jwt_verify : string -> option claims.

(** [jwt.sign(payload, JWT_SECRET)]. *)
Variable jwt_sign : claims -> string.

(** [bcrypt.compare(password, hash)]. *)
Variable bcrypt_compare : text -> text -> bool.

Definition authenticate (authorization : option string) : gate :=
  match bearer_token authorization with
  | None => Reject 401 "Unauthorized"
  | Some token =>
      if String.eqb token "" then Reject 401 "Unauthorized"
      else
        match jwt_verify token with
        | Some decoded => Pass decoded
        | None => Reject 401 "Invalid token"
        end
  end.

Definition isAdmin (user : claims) : gate :=
  match claim_role user with
  | Some r => if String.eqb r "ADMIN" then Pass user
              else Reject 403 "Forbidden"
  | None => Reject 403 "Forbidden"
  end.

(** [SELECT * FROM users WHERE username = ?] with [.get]. *)
Definition select_user_by_username (username : text) : M (option User.row) :=
  statement (fun db =>
    inr (head (List.filter
                 (fun u => sql_eq_text (User.username u) username)
                 (users db)), db)).

(** [POST /api/auth/login]. *)
Definition post_auth_login (username password : text) : M api_response :=
  found <- select_user_by_username username ;;
  match found with
  | None => ret (ApiRes 401 (Body (JsonError "Invalid credentials")))
  | Some user =>
      if bcrypt_compare password (User.password user)
      then ret (ApiRes 200
                  (LoginOk (jwt_sign (Claims (Some (User.id user))
                                             (User.username user)
                                             (User.role user)))
                           (profile_of user)))
      else ret (ApiRes 401 (Body (JsonError "Invalid credentials")))
  end.

(** [GET /api/auth/me]: [SELECT id, username, name, role, age, gender,
    blood_group, contact FROM users WHERE id = ?] with [.get]. *)
Definition get_auth_me (user : claims) : M (option Profile.row) :=
  statement (fun db =>
    inr (profile_of <$>
           head (List.filter (fun u => sql_eq_id (User.id u) (claim_id user))
                             (users db)), db)).

Definition answered (h : M response) : M api_response :=
  r <- h ;; ret (ApiRes (status_code r) (Body (body r))).

Definition listed {A} (h : M A) (f : A -> api_payload) : M api_response :=
  a <- h ;; ret (ApiRes 200 (f a)).

Definition rejected (status : Z) (error : string) : M api_response :=
  ret (ApiRes status (Body (JsonError error))).

(** The middleware chain in front of a handler: [authenticate], then
    [isAdmin] on the admin routes. *)
Definition guarded (admin : bool) (authorization : option string)
    (h : claims -> M api_response) : M api_response :=
  match authenticate authorization with
  | Reject s e => rejected s e
  | Pass user =>
      if admin then
        match isAdmin user with
        | Reject s e => rejected s e
        | Pass _ => h user
        end
      else h user
  end.

(** The routes of [apiRouter]. *)
Definition route (now : string) (authorization : option string)
    (req : api_request) : M api_response :=
  match req with
  | GetHealth => ret (ApiRes 200 Health)
  | GetPing => ret (ApiRes 200 Pong)
  | PostAuthRegister u p n a g b c r =>
      answered (post_auth_register u p n a g b c r)
  | PostAuthLogin u p => post_auth_login u p
  | GetAuthMe =>
      guarded false authorization (fun user => listed (get_auth_me user) Me)
  | GetOrgans t b =>
      guarded false authorization
              (fun _ => listed (get_organs t b) OrgansListed)
  | PostOrgans t b =>
      guarded false authorization
              (fun user => answered (post_organs now (claim_id user) t b))
  | PostRequests t b u =>
      guarded false authorization
              (fun user => answered (post_requests now (claim_id user) t b u))
  | GetRequestsMy =>
      guarded false authorization
              (fun user => listed (get_requests_my (claim_id user)) MyRequests)
  | GetAdminStats =>
      guarded true authorization (fun _ => listed get_admin_stats StatsOf)
  | GetAdminRequests =>
      guarded true authorization
              (fun _ => listed get_admin_requests AdminRequests)
  | PostAdminRequestsStatus id s n =>
      guarded true authorization
              (fun _ => answered (post_admin_requests_status id s n))
  | GetAdminMatchesSuggest id =>
      guarded true authorization
              (fun _ => answered (get_admin_matches_suggest id))
  | PostAdminMatches d r o q t =>
      guarded true authorization
              (fun _ => answered (post_admin_matches now d r o q t))
  | GetAdminMatches =>
      guarded true authorization
              (fun _ => listed get_admin_matches AdminMatches)
  | GetAdminUsers =>
      guarded true authorization (fun _ => listed get_admin_users AdminUsers)
  | DeleteAdminUsers id =>
      guarded true authorization
              (fun _ => answered (delete_admin_users id))
  end.

(** One request against the store. *)
Definition api_step (now : string) (flt : option fault)
    (authorization : option string) (req : api_request) (db : Db)
  : api_outcome * Db :=
  match route now authorization req flt db with
  | Returned r db' _ => (Answered r, db')
  | Thrown e db' => (Uncaught e, db')
  end.

End Auth.

(** ** Start-up *)

(** The store of a database file that does not exist yet, once the four
    [CREATE TABLE IF NOT EXISTS] have run. *)
Definition empty_db : Db := mkDb [] [] [] [] 0 0 0 0.

(** The part of [initDb] after the tables exist: look for a user named
    ['admin'] and insert the default admin when there is none. *)
Definition initDb (adminPassword : string) : M unit :=
  admin <- statement (fun db =>
    inr (head (List.filter
                 (fun u => sql_eq_text (User.username u) (Some "admin"))
                 (users db)), db)) ;;
  match admin with
  | Some _ => ret tt
  | None =>
      insert_user (Some "admin") (Some adminPassword) (Some "System Admin")
                  (Some 35) (Some "Male") (Some "O+") (Some "1234567890")
                  (Some "ADMIN") ;;;
      ret tt
  end.

(** The store a run of [initDb] leaves when no statement fails. *)
Definition started (adminPassword : string) (db : Db) : Db :=
  match initDb adminPassword None db with
  | Returned _ db' _ => db'
  | Thrown _ db' => db'
  end.

(** ** The client's endpoint normalisation *)

(** [path.endsWith('/')]. *)
Fixpoint ends_with_slash (s : string) : bool :=
  match s with
  | EmptyString => false
  | String c EmptyString => Ascii.eqb c "/"%char
  | String _ rest => ends_with_slash rest
  end.

(** The endpoint [api.fetch] requests: [const [path, query] =
    endpoint.split('?')], and a slash is appended to a path without
    one. *)
Definition normalizedEndpoint (endpoint : string) : string :=
  let parts := split_on "?"%char endpoint in
  let path := nth 0 parts EmptyString in
  let query := nth_error parts 1 in
  if ends_with_slash path then endpoint
  else path ++ "/" ++ (if js_truthy query then "?" ++ default "" query
                       else "").

(** ** The seed script's placeholder conversion *)

(** [(s.match(/\?/g) || []).length]. *)
Fixpoint count_placeholders (s : string) : nat :=
  match s with
  | EmptyString => O
  | String c rest =>
      if Ascii.eqb c "?"%char then S (count_placeholders rest)
      else count_placeholders rest
  end.

Definition decimal (n : nat) : string :=
  NilEmpty.string_of_uint (Nat.to_uint n).

(** The replacement callback of [sql.replace(/\?/g, (_, offset, s) => ...)]:
    a dollar sign and one more than the number of question marks before
    [offset]. *)
Definition placeholder (s : string) (offset : nat) : string :=
  "$" ++ decimal (count_placeholders (substring 0 offset s) + 1).

Fixpoint replace_placeholders (s : string) (offset : nat) (rest : string)
  : string :=
  match rest with
  | EmptyString => EmptyString
  | String c rest' =>
      (if Ascii.eqb c "?"%char then placeholder s offset
       else String c EmptyString)
        ++ replace_placeholders s (S offset) rest'
  end.

(** [pgSql], the statement text the Postgres pool is given. *)
Definition pgSql (sql : string) : string := replace_placeholders sql 0 sql.

(** ** Well-formed stores *)

(** The rowids of a table are pairwise distinct and none exceeds the
    table's sequence. *)
Definition keys_wf (ids : list Z) (seq : Z) : Prop :=
  List.NoDup ids /\ forall z, In z ids -> z <= seq.

(** The usernames in use ([NULL] is not one). *)
Definition usernames (l : list User.row) : list string :=
  flat_map (fun u => match User.username u with
                     | Some s => [s]
                     | None => []
                     end) l.

Definition store_wf (db : Db) : Prop :=
  keys_wf (map User.id (users db)) (seq_users db) /\
  keys_wf (map Organ.id (organs db)) (seq_organs db) /\
  keys_wf (map Request.id (organ_requests db)) (seq_organ_requests db) /\
  keys_wf (map Match.id (matches db)) (seq_matches db) /\
  List.NoDup (usernames (users db)).

(** The order [GET /api/admin/requests] is meant to produce: urgency rank
    ascending and, within one rank, newest first. *)
Definition triage_order (a b : Request.row * text) : Prop :=
  int_le (urgency_rank (Request.urgency_level (fst a)))
         (urgency_rank (Request.urgency_level (fst b))) = true /\
  (int_le (urgency_rank (Request.urgency_level (fst b)))
          (urgency_rank (Request.urgency_level (fst a))) = true ->
   text_le (Request.date_requested (fst b))
           (Request.date_requested (fst a)) = true).

(** Numbering the question marks of a text from [k] on, left to right:
    what the placeholder conversion is compared with. *)
Fixpoint number_from (k : nat) (s : string) : string :=
  match s with
  | EmptyString => EmptyString
  | String c rest =>
      if Ascii.eqb c "?"%char
      then "$" ++ decimal k ++ number_from (S k) rest
      else String c (number_from k rest)
  end.

(** ** The admin dashboard's approval *)

(** The body [handleApproveMatch] posts to [/api/admin/matches] for a
    suggested organ and the selected request. *)
Definition handleApproveMatch (organ : Organ.row * text * text)
    (selectedRequest : Request.row) : call :=
  Allocate (Organ.donor_id (fst (fst organ)))
           (Request.recipient_id selectedRequest)
           (Some (Organ.id (fst (fst organ))))
           (Some (Request.id selectedRequest))
           (Request.organ_type selectedRequest).

(** ** The seed script *)

(** [db.exec("DELETE FROM t")]: every row goes, the sequence stays. *)
Definition delete_all_matches : M unit :=
  statement (fun db => inr (tt, with_matches [] (seq_matches db) db)).

Definition delete_all_organ_requests : M unit :=
  statement (fun db =>
    inr (tt, with_organ_requests [] (seq_organ_requests db) db)).

Definition delete_all_organs : M unit :=
  statement (fun db => inr (tt, with_organs [] (seq_organs db) db)).

Definition delete_all_users : M unit :=
  statement (fun db => inr (tt, with_users [] (seq_users db) db)).

(** [seed()] of the SQLite seed script, once the tables exist:
    [adminPassword] and [userPassword] are the two bcrypt hashes, [t1] to
    [t4] the clock readings at the four inserts that take a default
    timestamp. *)
Definition seed (adminPassword userPassword : string) (t1 t2 t3 t4 : string)
  : M unit :=
  delete_all_matches ;;;
  delete_all_organ_requests ;;;
  delete_all_organs ;;;
  delete_all_users ;;;
  insert_user (Some "admin") (Some adminPassword) (Some "System Admin")
              (Some 35) (Some "Male") (Some "O+") (Some "1234567890")
              (Some "ADMIN") ;;;
  donor1 <- insert_user (Some "donor1") (Some userPassword) (Some "John Doe")
                        (Some 28) (Some "Male") (Some "O-")
                        (Some "9876543210") (Some "DONOR") ;;
  donor2 <- insert_user (Some "donor2") (Some userPassword)
                        (Some "Jane Smith") (Some 32) (Some "Female")
                        (Some "A+") (Some "5556667777") (Some "DONOR") ;;
  recipient1 <- insert_user (Some "recipient1") (Some userPassword)
                            (Some "Alice Brown") (Some 45) (Some "Female")
                            (Some "AB+") (Some "1112223333")
                            (Some "RECIPIENT") ;;
  recipient2 <- insert_user (Some "recipient2") (Some userPassword)
                            (Some "Bob Wilson") (Some 50) (Some "Male")
                            (Some "B-") (Some "4445556666")
                            (Some "RECIPIENT") ;;
  insert_user (Some "sravan13") (Some userPassword) (Some "Sravan Reddy")
              (Some 25) (Some "Male") (Some "B+") (Some "9988776655")
              (Some "DONOR") ;;;
  insert_organ t1 (Some "KIDNEY") (Some "O-") (Some donor1) ;;;
  insert_organ t2 (Some "LIVER") (Some "A+") (Some donor2) ;;;
  insert_organ_request t3 (Some recipient1) (Some "KIDNEY") (Some "AB+")
                       (Some "CRITICAL") ;;;
  insert_organ_request t4 (Some recipient2) (Some "LIVER") (Some "B-")
                       (Some "MEDIUM") ;;;
  ret tt.

(** The store a run of [seed] leaves when no statement fails. *)
Definition seeded (adminPassword userPassword : string)
    (t1 t2 t3 t4 : string) (db : Db) : Db :=
  match seed adminPassword userPassword t1 t2 t3 t4 None db with
  | Returned _ db' _ => db'
  | Thrown _ db' => db'
  end.
(** * Results *)

(** ** Comparisons and list statements *)

Lemma sql_eq_int_true (col param : int) :
  sql_eq_int col param = true <-> exists z, col = Some z /\ param = Some z.
Proof.
  unfold sql_eq_int. destruct col as [a|], param as [b|]; split;
    try discriminate; try (intros (z & ? & ?); discriminate).
  - intros H. apply bool_decide_eq_true in H. subst. eauto.
  - intros (z & [= ->] & [= ->]). apply bool_decide_eq_true. reflexivity.
Qed.

Lemma sql_eq_id_true (col : Z) (param : int) :
  sql_eq_id col param = true <-> param = Some col.
Proof.
  unfold sql_eq_id. rewrite sql_eq_int_true. split.
  - intros (z & [= ->] & ->). reflexivity.
  - intros ->. eauto.
Qed.

Lemma sql_eq_text_true (col param : text) :
  sql_eq_text col param = true <-> exists s, col = Some s /\ param = Some s.
Proof.
  unfold sql_eq_text. destruct col as [a|], param as [b|]; split;
    try discriminate; try (intros (z & ? & ?); discriminate).
  - intros H. apply bool_decide_eq_true in H. subst. eauto.
  - intros (z & [= ->] & [= ->]). apply bool_decide_eq_true. reflexivity.
Qed.

Lemma in_update_where {A} (cond : A -> bool) (f : A -> A) (l : list A) y :
  In y (update_where cond f l) <->
  exists x, In x l /\ y = if cond x then f x else x.
Proof.
  unfold update_where. rewrite in_map_iff. split.
  - intros (x & <- & Hx). eauto.
  - intros (x & Hx & ->). eauto.
Qed.

Lemma in_delete_where {A} (cond : A -> bool) (l : list A) y :
  In y (delete_where cond l) <-> In y l /\ cond y = false.
Proof.
  unfold delete_where. rewrite filter_In. split.
  - intros [? H]. split; [assumption|]. now apply negb_true_iff.
  - intros [? H]. split; [assumption|]. now apply negb_true_iff.
Qed.

Lemma update_where_none {A} (cond : A -> bool) (f : A -> A) (l : list A) :
  (forall x, In x l -> cond x = false) -> update_where cond f l = l.
Proof.
  intros H. unfold update_where. induction l as [|x l IH]; [reflexivity|].
  simpl. rewrite (H x (or_introl eq_refl)). f_equal.
  apply IH. intros y Hy. apply H. now right.
Qed.

Lemma max_id_upper (ids : list Z) z : In z ids -> z <= max_id ids.
Proof.
  induction ids as [|a ids IH]; [intros []|]. simpl.
  intros [->|H]; [lia|]. specialize (IH H). lia.
Qed.

(** The rowid of a new row is above every rowid in the table. *)
Lemma next_rowid_fresh (seq : Z) (ids : list Z) z :
  In z ids -> z < next_rowid seq ids.
Proof.
  intros H. apply max_id_upper in H. unfold next_rowid. lia.
Qed.

Lemma filter_app_length {A} (p : A -> bool) (l1 l2 : list A) :
  length (List.filter p (l1 ++ l2)) =
  (length (List.filter p l1) + length (List.filter p l2))%nat.
Proof. rewrite List.filter_app, length_app. reflexivity. Qed.

(** ** Allocation *)

(** The store an allocation leaves when no statement fails: one new
    [matches] row, the two [UPDATE]s applied. *)
Lemma allocate_runs (now : string) (d r o q : int) (t : text) (db : Db) :
  step (Event now None (Allocate d r o q t)) db =
  (Res 200 JsonSuccess,
   mkDb (users db)
        (update_where (fun x => sql_eq_id (Organ.id x) o)
                      (Organ.set_availability_status (Some "MATCHED"))
                      (organs db))
        (update_where (fun y => sql_eq_id (Request.id y) q)
                      (Request.set_status_note
                         (Some "APPROVED")
                         (Some "Matched with compatible donor"))
                      (organ_requests db))
        (matches db ++
           [Match.mk (next_rowid (seq_matches db) (map Match.id (matches db)))
                     d r o q t (Some now) (Some "COMPLETED")])
        (seq_users db) (seq_organs db) (seq_organ_requests db)
        (next_rowid (seq_matches db) (map Match.id (matches db)))).
Proof. reflexivity. Qed.

(** C1, as stated, fails: the kidney of [ward_after_approval] is already
    [MATCHED] and request 2 is [PENDING]; approving the kidney again
    answers success and inserts a second [matches] row. *)
Lemma second_allocation_is_accepted :
  organ_matched 1 ward_after_approval /\
  (exists o, In o (organs ward_after_approval) /\ Organ.id o = 1) /\
  fst (step second_approval ward_after_approval) = Res 200 JsonSuccess /\
  matches_of_organ 1 ward_after_approval = 1%nat /\
  matches_of_organ 1 (snd (step second_approval ward_after_approval)) = 2%nat.
Proof.
  split; [|split; [|repeat split]].
  - intros o [<-|[]] _. reflexivity.
  - eexists. split; [left; reflexivity|reflexivity].
Qed.

(** C1, amended: an allocation reads neither status. Whatever the store
    holds, a call that meets no storage failure answers success, appends
    exactly one [matches] row carrying the identifiers it was given, and
    leaves the rows already there as they were. *)
Theorem allocate_ignores_status (now : string) (d r o q : int) (t : text)
    (db : Db) :
  let out := step (Event now None (Allocate d r o q t)) db in
  fst out = Res 200 JsonSuccess /\
  exists i,
    matches (snd out) =
    (matches db ++ [Match.mk i d r o q t (Some now) (Some "COMPLETED")])%list.
Proof.
  cbv zeta. rewrite allocate_runs. split; [reflexivity|].
  eexists. reflexivity.
Qed.

(** C2, as stated, fails: the two approvals of the same kidney for the two
    pending requests both answer success, in either order, and two
    [matches] rows reference the kidney afterwards. *)
Lemma both_allocations_succeed :
  fst (run [first_approval; second_approval] ward) =
    [Res 200 JsonSuccess; Res 200 JsonSuccess] /\
  matches_of_organ 1 (snd (run [first_approval; second_approval] ward)) = 2%nat /\
  fst (run [second_approval; first_approval] ward) =
    [Res 200 JsonSuccess; Res 200 JsonSuccess] /\
  matches_of_organ 1 (snd (run [second_approval; first_approval] ward)) = 2%nat /\
  request_status 1 ward = Some (Some "PENDING") /\
  request_status 2 ward = Some (Some "PENDING").
Proof. repeat split. Qed.

(** C2, amended: two allocations of the same donation to two requests,
    handled one after the other in either order and meeting no storage
    failure, both answer success, and each adds one [matches] row that
    references the donation. *)
Theorem allocations_of_one_organ_both_succeed (now1 now2 : string)
    (d1 r1 q1 d2 r2 q2 : int) (t1 t2 : text) (o : Z) (db : Db) :
  let a1 := Event now1 None (Allocate d1 r1 (Some o) q1 t1) in
  let a2 := Event now2 None (Allocate d2 r2 (Some o) q2 t2) in
  fst (run [a1; a2] db) = [Res 200 JsonSuccess; Res 200 JsonSuccess] /\
  fst (run [a2; a1] db) = [Res 200 JsonSuccess; Res 200 JsonSuccess] /\
  matches_of_organ o (snd (run [a1; a2] db)) = (matches_of_organ o db + 2)%nat /\
  matches_of_organ o (snd (run [a2; a1] db)) = (matches_of_organ o db + 2)%nat.
Proof.
  cbv zeta. cbn [run]. rewrite !allocate_runs. cbn beta iota.
  cbn [fst snd].
  assert (E : sql_eq_int (Some o) (Some o) = true)
    by (apply sql_eq_int_true; eauto).
  unfold matches_of_organ. cbn [matches].
  rewrite !filter_app_length. cbn [List.filter Match.organ_id].
  rewrite E. cbn [length]. repeat split; lia.
Qed.





(** C4, as stated, fails: no request of [ward] has id 99, yet approving
    the kidney for request 99 answers success rather than 404, inserts a
    [matches] row and turns the kidney [MATCHED]. *)
Lemma allocation_for_missing_request_succeeds :
  let out := step (at_noon (Allocate (Some 2) (Some 3) (Some 1) (Some 99)
                                     (Some "KIDNEY"))) ward in
  (forall y, In y (organ_requests ward) -> Request.id y <> 99) /\
  fst out = Res 200 JsonSuccess /\
  matches ward = [] /\
  (exists m, matches (snd out) = [m] /\ Match.request_id m = Some 99) /\
  organs (snd out) <> organs ward /\
  organ_matched 1 (snd out).
Proof.
  cbv zeta. split; [|split; [reflexivity|split; [reflexivity|split; [|split]]]].
  - intros y [<-|[<-|[]]]; discriminate.
  - eexists. split; reflexivity.
  - discriminate.
  - intros o [<-|[]] _. reflexivity.
Qed.

(** C4, amended: an allocation whose request id (or donation id) names no
    row, and that meets no storage failure, answers success instead of
    NotFound and inserts one [matches] row carrying the identifiers it was
    given; the [UPDATE] aimed at the missing row changes nothing, the other
    [UPDATE] still runs. *)
Theorem allocate_with_dangling_reference (now : string) (d r o q : int)
    (t : text) (db : Db) :
  (forall y, In y (organ_requests db) -> q <> Some (Request.id y)) \/
  (forall x, In x (organs db) -> o <> Some (Organ.id x)) ->
  let out := step (Event now None (Allocate d r o q t)) db in
  fst out = Res 200 JsonSuccess /\
  (exists i, matches (snd out) =
             (matches db ++
                [Match.mk i d r o q t (Some now) (Some "COMPLETED")])%list) /\
  ((forall y, In y (organ_requests db) -> q <> Some (Request.id y)) ->
   organ_requests (snd out) = organ_requests db /\
   organs (snd out) =
     update_where (fun x => sql_eq_id (Organ.id x) o)
                  (Organ.set_availability_status (Some "MATCHED"))
                  (organs db)) /\
  ((forall x, In x (organs db) -> o <> Some (Organ.id x)) ->
   organs (snd out) = organs db /\
   organ_requests (snd out) =
     update_where (fun y => sql_eq_id (Request.id y) q)
                  (Request.set_status_note
                     (Some "APPROVED") (Some "Matched with compatible donor"))
                  (organ_requests db)).
Proof.
  intros _. cbv zeta. rewrite allocate_runs.
  cbn [fst snd organs organ_requests matches].
  split; [reflexivity|]. split; [eexists; reflexivity|]. split.
  - intros H. split; [|reflexivity]. apply update_where_none.
    intros y Hy. destruct (sql_eq_id (Request.id y) q) eqn:E; [|reflexivity].
    apply sql_eq_id_true in E. elim (H y Hy E).
  - intros H. split; [|reflexivity]. apply update_where_none.
    intros x Hx. destruct (sql_eq_id (Organ.id x) o) eqn:E; [|reflexivity].
    apply sql_eq_id_true in E. elim (H x Hx E).
Qed.

Lemma allocate_with_dangling_reference_witness :
  let out := step (at_noon (Allocate (Some 2) (Some 3) (Some 1) (Some 99)
                                     (Some "KIDNEY"))) ward in
  (forall y, In y (organ_requests ward) -> Some 99 <> Some (Request.id y)) /\
  fst out = Res 200 JsonSuccess /\
  organ_requests (snd out) = organ_requests ward.
Proof.
  assert (H : forall y, In y (organ_requests ward) ->
                        Some 99 <> Some (Request.id y))
    by (intros y [<-|[<-|[]]]; discriminate).
  cbv zeta. split; [exact H|].
  destruct (allocate_with_dangling_reference
              "2024-05-01 12:00:00" (Some 2) (Some 3) (Some 1) (Some 99)
              (Some "KIDNEY") ward (or_introl H)) as (Hres & _ & Hq & _).
  split; [exact Hres|]. exact (proj1 (Hq H)).
Defined.

(** ** Intake *)

(** C6, as stated, fails: on the fresh store, an organ of type [BANANA]
    and group [Z9] is registered, and a request with urgency [WHENEVER] is
    filed; both calls answer 200 with the new id and both rows are
    persisted. *)
Lemma intake_accepts_unknown_values :
  let db := init_db "$2a$10$a" in
  step (at_noon (AddOrgan (Some 1) (Some "BANANA") (Some "Z9"))) db =
    (Res 200 (JsonId 1),
     with_organs [Organ.mk 1 (Some "BANANA") (Some "Z9") (Some 1)
                           (Some "AVAILABLE") (Some "2024-05-01 12:00:00")]
                 1 db) /\
  step (at_noon (AddRequest (Some 1) (Some "KIDNEY") (Some "A+")
                            (Some "WHENEVER"))) db =
    (Res 200 (JsonId 1),
     with_organ_requests
       [Request.mk 1 (Some 1) (Some "KIDNEY") (Some "A+") (Some "WHENEVER")
                   (Some "PENDING") (Some "2024-05-01 12:00:00") None]
       1 db).
Proof. split; reflexivity. Qed.

(** C6, amended: intake compares no value with the enumerations. Given
    an organ type and a blood group that are text or [NULL], organ
    registration stores them as given, whatever they are, and the new row
    always starts [AVAILABLE]; given an organ type, a blood group and an
    urgency that are text or [NULL], request submission stores them as
    given and the new row always starts [PENDING] with no note. Each call
    answers 200 with the new id; the one way it fails is a storage fault
    on its [INSERT], which answers 500 and stores nothing. A text outside
    the enumerations is therefore stored, never rejected. *)
Theorem intake_persists_what_it_is_given (now : string) (flt : option fault)
    (user_id : int) (organ_type blood_group urgency_level : text) (db : Db) :
  step (Event now flt (AddOrgan user_id organ_type blood_group)) db =
    match strikes_within 1 flt with
    | Some msg => (Res 500 (ExpressError (SqliteError msg)), db)
    | None =>
        let i := next_rowid (seq_organs db) (map Organ.id (organs db)) in
        (Res 200 (JsonId i),
         with_organs
           (organs db ++ [Organ.mk i organ_type blood_group user_id
                                   (Some "AVAILABLE") (Some now)]) i db)
    end /\
  step (Event now flt
          (AddRequest user_id organ_type blood_group urgency_level)) db =
    match strikes_within 1 flt with
    | Some msg => (Res 500 (ExpressError (SqliteError msg)), db)
    | None =>
        let i := next_rowid (seq_organ_requests db)
                            (map Request.id (organ_requests db)) in
        (Res 200 (JsonId i),
         with_organ_requests
           (organ_requests db ++
              [Request.mk i user_id organ_type blood_group urgency_level
                          (Some "PENDING") (Some now) None]) i db)
    end.
Proof. destruct flt as [[[|k] msg]|]; split; reflexivity. Qed.

(** ** Lifecycle *)

Section Preservation.
Variable P : Db -> Prop.

Lemma preserves_ret {A} (a : A) : preserves P (ret a).
Proof. intros flt db H. exact H. Qed.

Lemma preserves_throw {A} (e : exn) : preserves P (@throw A e).
Proof. intros flt db H. exact H. Qed.

Lemma preserves_js {A} (r : exn + A) : preserves P (js r).
Proof. destruct r; [apply preserves_throw|apply preserves_ret]. Qed.

Lemma preserves_bind {A B} (m : M A) (k : A -> M B) :
  preserves P m -> (forall a, preserves P (k a)) -> preserves P (bind m k).
Proof.
  intros Hm Hk flt db H. unfold bind. specialize (Hm flt db H).
  destruct (m flt db) as [a db' flt'|e db']; [|exact Hm].
  apply Hk. exact Hm.
Qed.

Lemma preserves_statement {A} (f : Db -> exn + (A * Db)) :
  (forall db a db', f db = inr (a, db') -> P db -> P db') ->
  preserves P (statement f).
Proof.
  intros Hf flt db H. unfold statement.
  destruct flt as [[[|n] msg]|]; [exact H| |];
    (destruct (f db) as [e|[a db']] eqn:E; [exact H|exact (Hf _ _ _ E H)]).
Qed.

Lemma preserves_transaction {A} (body : M A) :
  preserves P body -> preserves P (transaction body).
Proof.
  intros Hb flt db H. unfold transaction. specialize (Hb flt db H).
  destruct (body flt db); [exact Hb|exact H].
Qed.

Lemma preserves_try_catch {A} (body : M A) (h : exn -> M A) :
  preserves P body -> (forall e, preserves P (h e)) ->
  preserves P (try_catch body h).
Proof.
  intros Hb Hh flt db H. unfold try_catch. specialize (Hb flt db H).
  destruct (body flt db) as [a db' flt'|e db']; [exact Hb|].
  apply Hh. exact Hb.
Qed.

Lemma preserves_serve (h : M response) flt db :
  preserves P h -> P db -> P (snd (serve h flt db)).
Proof.
  intros Hh H. unfold serve. specialize (Hh flt db H).
  destruct (h flt db); exact Hh.
Qed.
End Preservation.

(** A statement that leaves the [organs] table and its sequence alone
    keeps the invariant. *)
Lemma organs_inv_same tracked (db db' : Db) :
  organs db' = organs db -> seq_organs db' = seq_organs db ->
  organs_inv tracked db -> organs_inv tracked db'.
Proof.
  unfold organs_inv, organ_ids_bounded, organ_matched.
  intros -> ->. exact id.
Qed.

Lemma organs_inv_insert tracked now t b d :
  preserves (organs_inv tracked) (insert_organ now t b d).
Proof.
  apply preserves_statement. intros db a db' [= <- <-] [Hb Ht].
  set (i := next_rowid (seq_organs db) (map Organ.id (organs db))).
  assert (Hseq : seq_organs db < i) by (unfold i, next_rowid; lia).
  split.
  - intros o Ho. cbn in Ho. apply in_app_or in Ho as [Ho|[<-|[]]].
    + specialize (Hb o Ho). cbn. lia.
    + cbn. lia.
  - destruct tracked as [j|]; [|exact I]. destruct Ht as [Hj Hm]. split.
    + cbn. lia.
    + intros o Ho Hid. cbn in Ho. apply in_app_or in Ho as [Ho|[<-|[]]].
      * exact (Hm o Ho Hid).
      * cbn in Hid. lia.
Qed.

Lemma organs_inv_update tracked organ_id :
  preserves (organs_inv tracked) (update_organ_matched organ_id).
Proof.
  apply preserves_statement. intros db a db' [= <- <-] [Hb Ht]. split.
  - intros o Ho. cbn [organs with_organs] in Ho.
    apply in_update_where in Ho as (o0 & Ho0 & ->).
    specialize (Hb o0 Ho0).
    destruct (sql_eq_id (Organ.id o0) organ_id); exact Hb.
  - destruct tracked as [j|]; [|exact I]. destruct Ht as [Hj Hm].
    split; [exact Hj|].
    intros o Ho. cbn [organs with_organs] in Ho.
    apply in_update_where in Ho as (o0 & Ho0 & ->).
    destruct (sql_eq_id (Organ.id o0) organ_id);
      [intros _; reflexivity|apply Hm; exact Ho0].
Qed.

Lemma organs_inv_delete tracked id :
  preserves (organs_inv tracked) (delete_organs_of id).
Proof.
  apply preserves_statement. intros db a db' [= <- <-] [Hb Ht]. split.
  - intros o Ho. cbn [organs with_organs] in Ho.
    apply in_delete_where in Ho as [Ho _]. exact (Hb o Ho).
  - destruct tracked as [j|]; [|exact I]. destruct Ht as [Hj Hm].
    split; [exact Hj|].
    intros o Ho. cbn [organs with_organs] in Ho.
    apply in_delete_where in Ho as [Ho _]. apply Hm. exact Ho.
Qed.

Ltac keeps_organs :=
  apply preserves_statement;
  let db := fresh "db" in
  let H := fresh "H" in
  intros db ? ? H;
  repeat match type of H with
         | (if ?c then _ else _) = _ => destruct c; [discriminate H|]
         end;
  injection H as _ <-; apply organs_inv_same; reflexivity.

Lemma handler_keeps_organs_inv tracked now (c : call) :
  preserves (organs_inv tracked) (handler now c).
Proof.
  destruct c; cbn [handler];
    unfold post_auth_register, post_organs, post_requests,
      post_admin_requests_status, get_admin_matches_suggest,
      post_admin_matches, delete_admin_users, update_request_approved.
  - apply preserves_try_catch; [|intros; apply preserves_ret].
    apply preserves_bind; [|intros; apply preserves_ret].
    unfold insert_user. keeps_organs.
  - apply preserves_bind; [apply organs_inv_insert|intros; apply preserves_ret].
  - apply preserves_bind; [|intros; apply preserves_ret].
    unfold insert_organ_request. keeps_organs.
  - apply preserves_bind; [|intros; apply preserves_ret].
    unfold update_request_status. keeps_organs.
  - apply preserves_bind; [unfold select_request; keeps_organs|].
    intros [request|]; [|apply preserves_ret].
    apply preserves_bind; [unfold select_available_organs; keeps_organs|].
    intros rows. apply preserves_bind; [apply preserves_js|].
    intros; apply preserves_ret.
  - apply preserves_try_catch; [|intros; apply preserves_ret].
    apply preserves_bind; [|intros; apply preserves_ret].
    apply preserves_transaction.
    apply preserves_bind; [unfold insert_match; keeps_organs|intros _].
    apply preserves_bind; [apply organs_inv_update|intros _].
    unfold update_request_status. keeps_organs.
  - apply preserves_try_catch; [|intros; apply preserves_ret].
    apply preserves_bind; [|intros; apply preserves_ret].
    apply preserves_transaction.
    apply preserves_bind; [unfold delete_matches_of; keeps_organs|intros _].
    apply preserves_bind; [unfold delete_requests_of; keeps_organs|intros _].
    apply preserves_bind; [apply organs_inv_delete|intros _].
    unfold delete_user. keeps_organs.
Qed.

Lemma step_keeps_organs_inv tracked (e : event) (db : Db) :
  organs_inv tracked db -> organs_inv tracked (snd (step e db)).
Proof.
  intros H. unfold step. apply preserves_serve; [|exact H].
  apply handler_keeps_organs_inv.
Qed.

Lemma run_step (e : event) (es : list event) (db : Db) :
  snd (run (e :: es) db) = snd (run es (snd (step e db))).
Proof.
  cbn [run]. destruct (step e db) as [r db']. cbn [snd].
  destruct (run es db'). reflexivity.
Qed.

Lemma run_keeps_organs_inv tracked (es : list event) (db : Db) :
  organs_inv tracked db -> organs_inv tracked (snd (run es db)).
Proof.
  revert db. induction es as [|e es IH]; intros db H; [exact H|].
  rewrite run_step. apply IH. apply step_keeps_organs_inv. exact H.
Qed.

Lemma reachable_run (es : list event) (db : Db) :
  reachable db -> reachable (snd (run es db)).
Proof.
  revert db. induction es as [|e es IH]; intros db H; [exact H|].
  rewrite run_step. apply IH. constructor. exact H.
Qed.

Lemma reachable_organ_ids_bounded (db : Db) :
  reachable db -> organ_ids_bounded db.
Proof.
  intros H. cut (organs_inv None db); [intros [Hb _]; exact Hb|].
  induction H as [pw|e db _ IH].
  - split; [intros o []|exact I].
  - apply step_keeps_organs_inv. exact IH.
Qed.

Lemma ward_reachable : reachable ward.
Proof. exact (reachable_run ward_calls _ (reachable_init "$2a$10$a")). Qed.

Lemma ward_after_approval_reachable : reachable ward_after_approval.
Proof. exact (reachable_step first_approval ward ward_reachable). Qed.

(** The admin status update when no statement fails. *)
Lemma set_request_status_runs (now : string) (id : int) (s n : text)
    (db : Db) :
  step (Event now None (SetRequestStatus id s n)) db =
  (Res 200 JsonSuccess,
   with_organ_requests
     (update_where (fun q => sql_eq_id (Request.id q) id)
                   (Request.set_status_note s n) (organ_requests db))
     (seq_organ_requests db) db).
Proof. reflexivity. Qed.

(** C5, as stated, fails for requests: in the reachable store [ward],
    request 1 leaves [PENDING] for [REJECTED], is put back to [PENDING] by
    a second status update, and leaves [PENDING] again when the allocation
    approves it. *)
Lemma request_status_goes_back_to_pending :
  let reject :=
    at_noon (SetRequestStatus (Some 1) (Some "REJECTED") (Some "No donor")) in
  let reopen := at_noon (SetRequestStatus (Some 1) (Some "PENDING") None) in
  reachable ward /\
  request_status 1 ward = Some (Some "PENDING") /\
  request_status 1 (snd (run [reject] ward)) = Some (Some "REJECTED") /\
  request_status 1 (snd (run [reject; reopen] ward)) = Some (Some "PENDING") /\
  request_status 1 (snd (run [reject; reopen; first_approval] ward)) =
    Some (Some "APPROVED").
Proof. split; [exact ward_reachable|repeat split]. Qed.

(** The admin status update under any storage fault that spares its one
    statement. *)
Lemma set_request_status_spared (now : string) (flt : option fault)
    (id : int) (s n : text) (db : Db) :
  strikes_within 1 flt = None ->
  step (Event now flt (SetRequestStatus id s n)) db =
  (Res 200 JsonSuccess,
   with_organ_requests
     (update_where (fun q => sql_eq_id (Request.id q) id)
                   (Request.set_status_note s n) (organ_requests db))
     (seq_organ_requests db) db).
Proof.
  destruct flt as [[[|k] msg]|]; intros H; [discriminate H|reflexivity..].
Qed.

(** C5, amended: in every reachable store a donation that is [MATCHED]
    stays [MATCHED] through every sequence of calls, storage faults
    included, for as long as its row exists, and its id is never given to
    a new row. A request's status is not one-way: in every store, reachable
    or not, and whatever the statuses of the organs and of the request
    itself, the admin status update answers 200 unless a storage fault
    stops its statement, every request with the given id comes out
    carrying the status and note the call was given, and no row with that
    id carries anything else. *)
Theorem matched_is_final_request_status_is_not :
  (forall (db : Db) (i : Z),
     reachable db ->
     (exists o, In o (organs db) /\ Organ.id o = i) ->
     organ_matched i db ->
     forall es, organ_matched i (snd (run es db))) /\
  (forall (db : Db) (now : string) (flt : option fault) (j : Z) (s n : text),
     strikes_within 1 flt = None ->
     let out := step (Event now flt (SetRequestStatus (Some j) s n)) db in
     fst out = Res 200 JsonSuccess /\
     (forall q, In q (organ_requests db) -> Request.id q = j ->
                In (Request.set_status_note s n q)
                   (organ_requests (snd out))) /\
     (forall q, In q (organ_requests (snd out)) -> Request.id q = j ->
                Request.status q = s /\ Request.admin_note q = n)).
Proof.
  split.
  - intros db i Hreach (o & Ho & Hid) Hm es.
    assert (Hinv : organs_inv (Some i) db).
    { pose proof (reachable_organ_ids_bounded db Hreach) as Hb.
      split; [exact Hb|]. split; [|exact Hm].
      rewrite <- Hid. apply Hb. exact Ho. }
    apply (run_keeps_organs_inv (Some i) es) in Hinv.
    destruct Hinv as (_ & _ & H). exact H.
  - intros db now flt j s n Hflt. cbv zeta.
    rewrite (set_request_status_spared now flt (Some j) s n db Hflt).
    cbn [fst snd organ_requests with_organ_requests].
    split; [reflexivity|]. split.
    + intros q Hq Hj. apply in_update_where. exists q. split; [exact Hq|].
      rewrite (proj2 (sql_eq_id_true (Request.id q) (Some j)));
        [reflexivity|congruence].
    + intros q Hq. apply in_update_where in Hq as (q0 & _ & ->).
      destruct (sql_eq_id (Request.id q0) (Some j)) eqn:E;
        [split; reflexivity|].
      intros Hj. exfalso.
      rewrite (proj2 (sql_eq_id_true (Request.id q0) (Some j))) in E;
        [discriminate|congruence].
Qed.

Lemma matched_is_final_request_status_is_not_witness :
  (reachable ward_after_approval /\
   organ_matched 1 ward_after_approval /\
   organ_matched 1
     (snd (run [second_approval;
                at_noon (AddOrgan (Some 2) (Some "LIVER") (Some "O-"));
                at_noon (RemoveUser (Some 3))] ward_after_approval))) /\
  (let reopen := at_noon (SetRequestStatus (Some 1) (Some "PENDING") None) in
   request_status 1 ward_after_approval = Some (Some "APPROVED") /\
   fst (step reopen ward_after_approval) = Res 200 JsonSuccess /\
   forall q, In q (organ_requests (snd (step reopen ward_after_approval))) ->
             Request.id q = 1 ->
             Request.status q = Some "PENDING" /\ Request.admin_note q = None).
Proof.
  assert (Hm : organ_matched 1 ward_after_approval)
    by (intros o [<-|[]] _; reflexivity).
  assert (He : exists o, In o (organs ward_after_approval) /\ Organ.id o = 1)
    by (eexists; split; [left; reflexivity|reflexivity]).
  split.
  - split; [exact ward_after_approval_reachable|]. split; [exact Hm|].
    exact (proj1 matched_is_final_request_status_is_not
                 ward_after_approval 1 ward_after_approval_reachable He Hm _).
  - cbv zeta. split; [reflexivity|].
    destruct (proj2 matched_is_final_request_status_is_not
                    ward_after_approval "2024-05-01 12:00:00" None 1
                    (Some "PENDING") None eq_refl) as (Hres & _ & Hrows).
    split; [exact Hres|exact Hrows].
Defined.

(** ** Suggestion *)

(** The suggestion route when no statement fails. *)
Lemma suggest_runs (now : string) (requestId : int) (db : Db) :
  step (Event now None (Suggest requestId)) db =
  match find_request requestId db with
  | None => (Res 404 (JsonError "Request not found"), db)
  | Some request =>
      match js_filter (is_suggestion request)
                      (available_organs (Request.organ_type request) db) with
      | inl e => (Res 500 (ExpressError e), db)
      | inr rows => (Res 200 (JsonSuggestions rows), db)
      end
  end.
Proof.
  unfold step, serve, handler, get_admin_matches_suggest, bind,
    select_request, select_available_organs, statement.
  cbn [ev_call ev_fault ev_now tick].
  destruct (find_request requestId db) as [request|]; [|reflexivity].
  destruct (js_filter _ _); reflexivity.
Qed.

(** A fault due after the route's two statements never strikes. *)
Lemma suggest_fault_late (now : string) (n : nat) (msg : string)
    (requestId : int) (db : Db) :
  step (Event now (Some (mkFault (S (S n)) msg)) (Suggest requestId)) db =
  step (Event now None (Suggest requestId)) db.
Proof.
  rewrite suggest_runs.
  unfold step, serve, handler, get_admin_matches_suggest, bind,
    select_request, select_available_organs, statement.
  cbn [ev_call ev_fault ev_now tick].
  destruct (find_request requestId db) as [request|]; [|reflexivity].
  destruct (js_filter _ _); reflexivity.
Qed.

(** A storage fault turns the answer into a 500 or leaves it as it is;
    the route never writes. *)
Lemma suggest_under_fault (now : string) (flt : option fault)
    (requestId : int) (db : Db) :
  step (Event now flt (Suggest requestId)) db =
    step (Event now None (Suggest requestId)) db \/
  exists msg,
    step (Event now flt (Suggest requestId)) db =
      (Res 500 (ExpressError (SqliteError msg)), db).
Proof.
  destruct flt as [[[|[|n]] msg]|]; [right|..|left; reflexivity].
  - exists msg. reflexivity.
  - rewrite suggest_runs.
    unfold step, serve, handler, get_admin_matches_suggest, bind,
      select_request, select_available_organs, statement.
    cbn [ev_call ev_fault ev_now tick].
    destruct (find_request requestId db) as [request|];
      [right; eauto|left; reflexivity].
  - left. apply suggest_fault_late.
Qed.

Lemma js_filter_kept {A} (p : A -> exn + bool) (l kept : list A) :
  js_filter p l = inr kept ->
  forall x, In x kept <-> In x l /\ p x = inr true.
Proof.
  revert kept. induction l as [|a l IH]; intros kept H x.
  - injection H as <-. split; [intros []|intros [[] _]].
  - cbn [js_filter] in H. destruct (p a) as [e|keep] eqn:Ea; [discriminate|].
    destruct (js_filter p l) as [e|kept'] eqn:El; [discriminate|].
    injection H as <-. specialize (IH kept' eq_refl x).
    destruct keep; cbn [In]; rewrite IH; split.
    + intros [<-|[? ?]]; auto.
    + intros [[<-|?] ?]; auto.
    + intros [? ?]; auto.
    + intros [[<-|?] Hx]; [congruence|auto].
Qed.

Lemma js_includes_true (v : jsval) (x : text) :
  js_includes v x = inr true ->
  exists items g, v = JsArray items /\ x = Some g /\ In g items.
Proof.
  destruct v as [|items|k]; [discriminate| |discriminate].
  destruct x as [g|]; [|discriminate]. cbn [js_includes].
  intros [= H]. apply existsb_exists in H as (g' & Hin & Heq).
  apply String.eqb_eq in Heq. subst g'. eauto.
Qed.

Lemma in_available_organs (t : text) (db : Db) o n g :
  In (o, n, g) (available_organs t db) <->
  In o (organs db) /\
  sql_eq_text (Organ.organ_type o) t = true /\
  Organ.availability_status o = Some "AVAILABLE" /\
  exists u, In u (users db) /\ Organ.donor_id o = Some (User.id u) /\
            User.name u = n /\ User.blood_group u = g.
Proof.
  unfold available_organs. rewrite in_flat_map. split.
  - intros (o' & Ho' & Hin).
    destruct (sql_eq_text (Organ.organ_type o') t) eqn:Et; [|destruct Hin].
    destruct (sql_eq_text (Organ.availability_status o') (Some "AVAILABLE"))
      eqn:Es; [|destruct Hin].
    cbn [andb] in Hin. apply in_map_iff in Hin as (u & [= <- <- <-] & Hu).
    apply filter_In in Hu as [Hu Hd].
    apply sql_eq_int_true in Hd as (z & Hd & [= <-]).
    apply sql_eq_text_true in Es as (s & Es & [= <-]).
    repeat split; eauto 10.
  - intros (Ho & Ht & Hs & u & Hu & Hd & <- & <-).
    exists o. split; [assumption|]. rewrite Ht, Hs. cbn.
    apply in_map_iff. exists u. split; [reflexivity|].
    apply filter_In. split; [assumption|].
    apply sql_eq_int_true. eauto.
Qed.

(** C7: every row the suggestion route returns for a request is an organ
    row of the store whose organ type is the request's, whose status is
    [AVAILABLE] (so never [MATCHED]), and whose donor's blood group lists
    the request's blood group among its compatible recipients. *)
Theorem suggestions_are_available_and_compatible (now : string)
    (flt : option fault) (requestId : int) (db : Db)
    (rows : list (Organ.row * text * text)) :
  fst (step (Event now flt (Suggest requestId)) db) =
    Res 200 (JsonSuggestions rows) ->
  exists request,
    find_request requestId db = Some request /\
    forall organ donor_name donor_blood_group,
      In (organ, donor_name, donor_blood_group) rows ->
      In organ (organs db) /\
      (exists t, Organ.organ_type organ = Some t /\
                 Request.organ_type request = Some t) /\
      Organ.availability_status organ = Some "AVAILABLE" /\
      Organ.availability_status organ <> Some "MATCHED" /\
      (exists u, In u (users db) /\
                 Organ.donor_id organ = Some (User.id u) /\
                 User.blood_group u = donor_blood_group) /\
      (exists items g,
         compatibleRecipients donor_blood_group = JsArray items /\
         Request.blood_group request = Some g /\ In g items).
Proof.
  intros H.
  destruct (suggest_under_fault now flt requestId db) as [E|[msg E]];
    rewrite E in H; [|discriminate].
  rewrite suggest_runs in H.
  destruct (find_request requestId db) as [request|]; [|discriminate].
  exists request. split; [reflexivity|].
  destruct (js_filter _ _) as [e|kept] eqn:Ef; [discriminate|].
  injection H as <-. intros o n g Hin.
  apply (js_filter_kept _ _ _ Ef) in Hin as [Hin Hp].
  apply in_available_organs in Hin as (Ho & Ht & Hs & u & Hu & Hd & _ & Hg).
  apply sql_eq_text_true in Ht as (t & Ht1 & Ht2).
  apply js_includes_true in Hp.
  split; [assumption|]. split; [eauto|]. split; [assumption|].
  split; [rewrite Hs; discriminate|]. split; [eauto|]. exact Hp.
Qed.

Lemma suggestions_are_available_and_compatible_witness :
  exists rows,
    fst (step (at_noon (Suggest (Some 1))) ward) =
      Res 200 (JsonSuggestions rows) /\
    rows <> [] /\
    exists request,
      find_request (Some 1) ward = Some request /\
      forall organ donor_name donor_blood_group,
        In (organ, donor_name, donor_blood_group) rows ->
        In organ (organs ward) /\
        (exists t, Organ.organ_type organ = Some t /\
                   Request.organ_type request = Some t) /\
        Organ.availability_status organ = Some "AVAILABLE" /\
        Organ.availability_status organ <> Some "MATCHED" /\
        (exists u, In u (users ward) /\
                   Organ.donor_id organ = Some (User.id u) /\
                   User.blood_group u = donor_blood_group) /\
        (exists items g,
           compatibleRecipients donor_blood_group = JsArray items /\
           Request.blood_group request = Some g /\ In g items).
Proof.
  eexists. split; [reflexivity|]. split; [discriminate|].
  exact (suggestions_are_available_and_compatible
           "2024-05-01 12:00:00" None (Some 1) ward _ eq_refl).
Defined.

(** ** The compatibility table *)

(** On the eight blood groups the lookup gives a fixed, non-empty array of
    blood groups; O- gives all eight and AB+ gives AB+ alone. *)
Lemma compatibleRecipients_of_blood_groups :
  Forall (fun g => exists items,
            compatibleRecipients (Some g) = JsArray items /\
            items <> [] /\ incl items blood_groups)
         blood_groups /\
  compatibleRecipients (Some "O-") =
    JsArray ["O-"; "O+"; "A-"; "A+"; "B-"; "B+"; "AB-"; "AB+"] /\
  compatibleRecipients (Some "AB+") = JsArray ["AB+"].
Proof.
  split; [|split; reflexivity].
  repeat constructor; eexists; (split; [reflexivity|]);
    (split; [discriminate|]); intros x Hx; cbn in Hx |- *; tauto.
Qed.

(** A key that is neither a blood group nor a property of
    [Object.prototype] reads as the empty array; so does [NULL]. *)
Lemma compatibleRecipients_of_unknown_key (k : string) :
  ~ In k blood_groups -> ~ In k object_prototype_keys ->
  compatibleRecipients (Some k) = JsArray [].
Proof.
  intros Hg Hp. unfold compatibleRecipients, js_get. cbn [property_key].
  assert (Ho : own_property k bloodCompatibility = None).
  { cbn [own_property bloodCompatibility].
    repeat match goal with
           | |- context [String.eqb ?a k] =>
               destruct (String.eqb_spec a k) as [<-|_];
               [exfalso; apply Hg; cbn; tauto|]
           end.
    reflexivity. }
  rewrite Ho.
  assert (He : existsb (String.eqb k) object_prototype_keys = false).
  { destruct (existsb (String.eqb k) object_prototype_keys) eqn:E;
      [|reflexivity].
    apply existsb_exists in E as (x & Hx & Heq).
    apply String.eqb_eq in Heq. subst x. contradiction. }
  rewrite He. reflexivity.
Qed.

Lemma compatibleRecipients_of_null : compatibleRecipients None = JsArray [].
Proof. reflexivity. Qed.

(** A property name of [Object.prototype] reads as the inherited member,
    which is truthy and has no [includes] method. *)
Lemma compatibleRecipients_of_inherited_key (k : string) (x : text) :
  In k object_prototype_keys ->
  compatibleRecipients (Some k) = JsInherited k /\
  js_includes (compatibleRecipients (Some k)) x =
    inl (TypeError "compatibleRecipients.includes is not a function").
Proof.
  intros H. cbn in H.
  repeat (destruct H as [<-|H]; [split; reflexivity|]). destruct H.
Qed.

(** C8 on the code: for the donor blood group ["constructor"], which is
    none of the eight groups, the lookup gives the inherited
    [Object.prototype.constructor] instead of the empty array, and the
    membership test that follows throws. *)
Theorem compatibleRecipients_constructor :
  ~ In "constructor" blood_groups /\
  compatibleRecipients (Some "constructor") = JsInherited "constructor" /\
  compatibleRecipients (Some "constructor") <> JsArray [] /\
  js_includes (compatibleRecipients (Some "constructor")) (Some "A+") =
    inl (TypeError "compatibleRecipients.includes is not a function").
Proof.
  split; [|split; [reflexivity|split; [discriminate|reflexivity]]].
  cbn. intros H. repeat (destruct H as [H|H]; [discriminate H|]). exact H.
Qed.

(** ** Suggestion: not found, empty, and the failing lookup *)

Lemma find_request_none (id : int) (db : Db) :
  find_request id db = None <->
  forall q, In q (organ_requests db) -> id <> Some (Request.id q).
Proof.
  unfold find_request. split.
  - intros H q Hq Hid.
    assert (Hin : In q (List.filter (fun q => sql_eq_id (Request.id q) id)
                                    (organ_requests db)))
      by (apply filter_In; split; [assumption|now apply sql_eq_id_true]).
    destruct (List.filter _ _); [destruct Hin|discriminate].
  - intros H.
    destruct (List.filter _ _) as [|q l] eqn:E; [reflexivity|].
    assert (Hin : In q (List.filter (fun q => sql_eq_id (Request.id q) id)
                                    (organ_requests db)))
      by (rewrite E; left; reflexivity).
    apply filter_In in Hin as [Hq Hid]. apply sql_eq_id_true in Hid.
    elim (H q Hq Hid).
Qed.

(** When no storage fault strikes, the route answers 404 exactly when no
    request has the id. *)
Lemma suggest_not_found_iff (now : string) (requestId : int) (db : Db) :
  status_code (fst (step (Event now None (Suggest requestId)) db)) = 404 <->
  forall q, In q (organ_requests db) -> requestId <> Some (Request.id q).
Proof.
  rewrite <- find_request_none, suggest_runs.
  destruct (find_request requestId db) as [request|].
  - split; [|discriminate]. destruct (js_filter _ _); discriminate.
  - split; reflexivity.
Qed.

(** When the request exists and the filter callback returns [false] on
    every candidate, the route answers 200 with the empty list. *)
Lemma suggest_empty_is_success (now : string) (requestId : int) (db : Db)
    (request : Request.row) :
  find_request requestId db = Some request ->
  (forall row, In row (available_organs (Request.organ_type request) db) ->
               is_suggestion request row = inr false) ->
  step (Event now None (Suggest requestId)) db =
    (Res 200 (JsonSuggestions []), db).
Proof.
  intros Hf Hall. rewrite suggest_runs, Hf.
  assert (E : js_filter (is_suggestion request)
                (available_organs (Request.organ_type request) db) = inr []).
  { induction (available_organs (Request.organ_type request) db)
      as [|row l IH]; [reflexivity|].
    cbn [js_filter]. rewrite (Hall row (or_introl eq_refl)).
    rewrite IH; [reflexivity|]. intros r Hr. apply Hall. now right. }
  rewrite E. reflexivity.
Qed.

Lemma odd_group_ward_reachable : reachable odd_group_ward.
Proof.
  exact (reachable_run odd_group_calls _ (reachable_init "$2a$10$a")).
Qed.

(** C9 on the code: in [odd_group_ward] request 1 exists and its only
    candidate, the kidney of the donor registered with blood group
    ["constructor"], is not compatible; the route answers neither 404 nor
    an empty list but the 500 of an uncaught [TypeError]. *)
Theorem suggest_throws_on_inherited_key :
  reachable odd_group_ward /\
  (exists request,
     find_request (Some 1) odd_group_ward = Some request /\
     forall row,
       In row (available_organs (Request.organ_type request) odd_group_ward) ->
       is_suggestion request row <> inr true) /\
  step (at_noon (Suggest (Some 1))) odd_group_ward =
    (Res 500 (ExpressError
                (TypeError "compatibleRecipients.includes is not a function")),
     odd_group_ward).
Proof.
  split; [exact odd_group_ward_reachable|]. split; [|reflexivity].
  eexists. split; [reflexivity|].
  intros row [<-|[]]. discriminate.
Qed.

(** ** The organ row's own blood group *)

Lemma js_filter_map {A} (p : A -> exn + bool) (f : A -> A) (l : list A) :
  (forall x, p (f x) = p x) ->
  js_filter p (map f l) =
  match js_filter p l with
  | inl e => inl e
  | inr kept => inr (map f kept)
  end.
Proof.
  intros H. induction l as [|a l IH]; [reflexivity|].
  cbn [map js_filter]. rewrite H, IH.
  destruct (p a) as [e|keep]; [reflexivity|].
  destruct (js_filter p l) as [e|kept]; [reflexivity|].
  destruct keep; reflexivity.
Qed.

Lemma find_request_relabel (g : Organ.row -> text) (id : int) (db : Db) :
  find_request id (relabel_organs g db) = find_request id db.
Proof. reflexivity. Qed.

Lemma available_organs_relabel (g : Organ.row -> text) (t : text) (db : Db) :
  available_organs t (relabel_organs g db) =
  map (relabel_row g) (available_organs t db).
Proof.
  unfold available_organs, relabel_organs.
  cbn [organs users with_organs].
  induction (organs db) as [|o l IH]; [reflexivity|].
  cbn [map flat_map]. rewrite IH, map_app. f_equal.
  cbn [Organ.set_blood_group Organ.organ_type Organ.availability_status
       Organ.donor_id].
  destruct (_ && _); [|reflexivity].
  rewrite map_map. reflexivity.
Qed.

(** C10: rewriting the [blood_group] column of the [organs] rows in any
    way changes the answer of the suggestion route only in that column of
    the rows returned: the same organs are suggested, or the same error is
    answered, whatever the organ rows' own blood groups are. *)
Theorem suggest_ignores_organ_blood_group (g : Organ.row -> text)
    (now : string) (flt : option fault) (requestId : int) (db : Db) :
  step (Event now flt (Suggest requestId)) (relabel_organs g db) =
  (relabel_response g (fst (step (Event now flt (Suggest requestId)) db)),
   relabel_organs g (snd (step (Event now flt (Suggest requestId)) db))).
Proof.
  assert (Hnone : step (Event now None (Suggest requestId))
                       (relabel_organs g db) =
                  (relabel_response g
                     (fst (step (Event now None (Suggest requestId)) db)),
                   relabel_organs g
                     (snd (step (Event now None (Suggest requestId)) db)))).
  { rewrite !suggest_runs, find_request_relabel.
    destruct (find_request requestId db) as [request|]; [|reflexivity].
    rewrite available_organs_relabel, js_filter_map by reflexivity.
    destruct (js_filter _ _); reflexivity. }
  destruct flt as [[[|[|n]] msg]|];
    [reflexivity| |rewrite !suggest_fault_late; exact Hnone|exact Hnone].
  unfold step, serve, handler, get_admin_matches_suggest, bind,
    select_request, select_available_organs, statement.
  cbn [ev_call ev_fault ev_now tick]. rewrite find_request_relabel.
  destruct (find_request requestId db); reflexivity.
Qed.

(** * Further results on the routes, the start-up code and the helpers *)

(** ** User removal *)

Lemma remove_user_runs (now : string) (id : int) (db : Db) :
  step (Event now None (RemoveUser id)) db =
  (Res 200 JsonSuccess,
   mkDb (delete_where (fun u => sql_eq_id (User.id u) id) (users db))
        (delete_where (fun o => sql_eq_int (Organ.donor_id o) id) (organs db))
        (delete_where (fun q => sql_eq_int (Request.recipient_id q) id)
                      (organ_requests db))
        (delete_where (fun m => sql_eq_int (Match.donor_id m) id
                                || sql_eq_int (Match.recipient_id m) id)
                      (matches db))
        (seq_users db) (seq_organs db) (seq_organ_requests db)
        (seq_matches db)).
Proof. reflexivity. Qed.

Lemma remove_user_under_fault (now : string) (flt : option fault) (id : int)
    (db : Db) :
  step (Event now flt (RemoveUser id)) db =
  match strikes_within 4 flt with
  | Some msg => (Res 400 (JsonError msg), db)
  | None => step (Event now None (RemoveUser id)) db
  end.
Proof. destruct flt as [[[|[|[|[|n]]]] msg]|]; reflexivity. Qed.

Lemma sql_eq_int_false_iff (col : int) (z : Z) :
  sql_eq_int col (Some z) = false <-> col <> Some z.
Proof.
  destruct (sql_eq_int col (Some z)) eqn:E.
  - apply sql_eq_int_true in E as (x & -> & [= ->]).
    split; [discriminate|congruence].
  - split; [|reflexivity]. intros _ ->.
    rewrite (proj2 (sql_eq_int_true (Some z) (Some z))) in E by eauto.
    discriminate.
Qed.

Lemma sql_eq_id_false_iff (col i : Z) :
  sql_eq_id col (Some i) = false <-> col <> i.
Proof.
  unfold sql_eq_id. rewrite sql_eq_int_false_iff.
  split; [congruence|]. intros H [= E]. exact (H E).
Qed.

Lemma delete_where_none {A} (cond : A -> bool) (l : list A) :
  (forall x, In x l -> cond x = false) -> delete_where cond l = l.
Proof.
  intros H. unfold delete_where. induction l as [|x l IH]; [reflexivity|].
  cbn [List.filter]. rewrite (H x (or_introl eq_refl)). cbn [negb].
  f_equal. apply IH. intros y Hy. apply H. now right.
Qed.

(** X1. [DELETE /api/admin/users/:id] is all or nothing and complete: it
    either answers an error and leaves the store as it was, or answers
    success, and then the rows left are exactly the rows that did not
    belong to the user: no user has the id, no organ has it as donor, no
    request as recipient, no match as donor or recipient, and every other
    row is still there, unchanged. *)
Theorem remove_user_all_or_nothing (now : string) (flt : option fault)
    (i : Z) (db : Db) :
  let out := step (Event now flt (RemoveUser (Some i))) db in
  (fst out = Res 200 JsonSuccess /\
   (forall u, In u (users (snd out)) <-> In u (users db) /\ User.id u <> i) /\
   (forall o, In o (organs (snd out)) <->
              In o (organs db) /\ Organ.donor_id o <> Some i) /\
   (forall q, In q (organ_requests (snd out)) <->
              In q (organ_requests db) /\ Request.recipient_id q <> Some i) /\
   (forall m, In m (matches (snd out)) <->
              In m (matches db) /\ Match.donor_id m <> Some i /\
              Match.recipient_id m <> Some i))
  \/
  (exists msg, fst out = Res 400 (JsonError msg) /\ snd out = db).
Proof.
  cbv zeta. rewrite remove_user_under_fault.
  destruct (strikes_within 4 flt) as [msg|]; [right; eauto|left].
  rewrite remove_user_runs. cbn [fst snd users organs organ_requests matches].
  split; [reflexivity|].
  split; [|split; [|split]]; intros x; rewrite in_delete_where.
  - rewrite sql_eq_id_false_iff. reflexivity.
  - rewrite sql_eq_int_false_iff. reflexivity.
  - rewrite sql_eq_int_false_iff. reflexivity.
  - rewrite orb_false_iff, !sql_eq_int_false_iff. reflexivity.
Qed.

(** X2. Removing an id that no user has and that no organ, request or
    match refers to is not an error: the route answers success and the
    store is unchanged. A route parameter that is not a number behaves the
    same way. *)
Theorem remove_unknown_user_succeeds (now : string) (id : int) (db : Db) :
  (forall u, In u (users db) -> id <> Some (User.id u)) ->
  (forall o, In o (organs db) -> sql_eq_int (Organ.donor_id o) id = false) ->
  (forall q, In q (organ_requests db) ->
             sql_eq_int (Request.recipient_id q) id = false) ->
  (forall m, In m (matches db) ->
             sql_eq_int (Match.donor_id m) id = false /\
             sql_eq_int (Match.recipient_id m) id = false) ->
  step (Event now None (RemoveUser id)) db = (Res 200 JsonSuccess, db).
Proof.
  intros Hu Ho Hq Hm. rewrite remove_user_runs.
  rewrite !delete_where_none; [destruct db; reflexivity|..].
  - intros m H. destruct (Hm m H) as [-> ->]. reflexivity.
  - exact Hq.
  - exact Ho.
  - intros u H. destruct (sql_eq_id (User.id u) id) eqn:E; [|reflexivity].
    apply sql_eq_id_true in E. elim (Hu u H E).
Qed.

Lemma remove_unknown_user_succeeds_witness :
  step (at_noon (RemoveUser None)) ward = (Res 200 JsonSuccess, ward) /\
  step (at_noon (RemoveUser (Some 77))) ward = (Res 200 JsonSuccess, ward).
Proof.
  split.
  - apply remove_unknown_user_succeeds.
    + intros u _. discriminate.
    + intros o _. destruct (Organ.donor_id o); reflexivity.
    + intros q _. destruct (Request.recipient_id q); reflexivity.
    + intros m [].
  - apply remove_unknown_user_succeeds.
    + intros u [<-|[<-|[<-|[<-|[]]]]]; discriminate.
    + intros o [<-|[]]. reflexivity.
    + intros q [<-|[<-|[]]]; reflexivity.
    + intros m [].
Defined.

(** ** Registration *)

Lemma register_runs (now : string) (username password name : text)
    (age : int) (gender blood_group contact role : text) (db : Db) :
  step (Event now None
          (Register username password name age gender blood_group contact
                    role)) db =
  if existsb (fun u => sql_eq_text (User.username u) username) (users db)
  then (Res 400 (JsonError "UNIQUE constraint failed: users.username"), db)
  else
    let i := next_rowid (seq_users db) (map User.id (users db)) in
    (Res 200 (JsonId i),
     with_users (users db ++ [User.mk i username password name age gender
                                      blood_group contact role]) i db).
Proof.
  unfold step, serve, handler, post_auth_register, try_catch, bind,
    insert_user, statement.
  cbn [ev_call ev_fault ev_now].
  destruct (existsb _ (users db)); reflexivity.
Qed.

(** X3. Registering a username that a user already has answers 400 with
    SQLite's message for the [UNIQUE] constraint and stores nothing. *)
Theorem register_rejects_taken_username (now : string) (taken : string)
    (password name : text) (age : int)
    (gender blood_group contact role : text) (db : Db) :
  (exists u, In u (users db) /\ User.username u = Some taken) ->
  step (Event now None
          (Register (Some taken) password name age gender blood_group contact
                    role)) db =
  (Res 400 (JsonError "UNIQUE constraint failed: users.username"), db).
Proof.
  intros (u & Hu & Hn). rewrite register_runs.
  replace (existsb _ (users db)) with true; [reflexivity|].
  symmetry. apply existsb_exists. exists u. split; [assumption|].
  apply sql_eq_text_true. eauto.
Qed.

Lemma register_rejects_taken_username_witness :
  step (at_noon (Register (Some "donor1") (Some "$2a$10$x") (Some "Mallory")
                          (Some 33) None None None (Some "DONOR"))) ward =
  (Res 400 (JsonError "UNIQUE constraint failed: users.username"), ward).
Proof.
  apply register_rejects_taken_username.
  eexists. split; [right; left; reflexivity|reflexivity].
Defined.

(** X4. Registration does not check the role. Once the password has been
    hashed, and with every field a value of its column (a text, an integer
    or [NULL]), registering a username nobody has (or no username at all)
    answers 200 when no storage fault strikes, whatever role the caller
    names, [ADMIN] included: the new user gets an id above every id of the
    table and is stored with that role and the other fields as given; the
    rows already there are untouched. *)
Theorem register_accepts_any_role (now : string) (username password name : text)
    (age : int) (gender blood_group contact role : text) (db : Db) :
  (forall u, In u (users db) ->
             username = None \/ User.username u <> username) ->
  exists i,
    step (Event now None
            (Register username password name age gender blood_group contact
                      role)) db =
    (Res 200 (JsonId i),
     with_users (users db ++ [User.mk i username password name age gender
                                      blood_group contact role]) i db) /\
    forall u, In u (users db) -> User.id u < i.
Proof.
  intros H. eexists. rewrite register_runs.
  replace (existsb _ (users db)) with false.
  - split; [reflexivity|]. intros u Hu.
    apply next_rowid_fresh. apply in_map. exact Hu.
  - symmetry. apply not_true_is_false. intros E.
    apply existsb_exists in E as (u & Hu & E).
    apply sql_eq_text_true in E as (s & E1 & E2).
    destruct (H u Hu) as [->|Hne]; [discriminate|congruence].
Qed.

Lemma register_accepts_any_role_witness :
  exists i,
    step (at_noon (Register (Some "mallory") (Some "$2a$10$x") (Some "Mallory")
                            (Some 33) None None None (Some "ADMIN"))) ward =
    (Res 200 (JsonId i),
     with_users (users ward ++
                   [User.mk i (Some "mallory") (Some "$2a$10$x")
                            (Some "Mallory") (Some 33) None None None
                            (Some "ADMIN")]) i ward) /\
    forall u, In u (users ward) -> User.id u < i.
Proof.
  apply register_accepts_any_role.
  intros u [<-|[<-|[<-|[<-|[]]]]]; right; discriminate.
Defined.

(** ** Primary keys and usernames in reachable stores *)

Lemma keys_wf_insert (ids : list Z) (seq : Z) :
  keys_wf ids seq ->
  keys_wf (ids ++ [next_rowid seq ids]) (next_rowid seq ids).
Proof.
  intros [Hn Hb]. split.
  - apply List.NoDup_app; [exact Hn|repeat constructor; intros []|].
    intros z Hz [<-|[]]. apply (next_rowid_fresh seq) in Hz. lia.
  - intros z Hz. apply in_app_or in Hz as [Hz|[<-|[]]]; [|lia].
    apply (next_rowid_fresh seq) in Hz. lia.
Qed.

Lemma map_update_where {A B} (key : A -> B) (cond : A -> bool) (f : A -> A)
    (l : list A) :
  (forall x, key (f x) = key x) ->
  map key (update_where cond f l) = map key l.
Proof.
  intros H. unfold update_where. rewrite map_map. apply map_ext.
  intros x. destruct (cond x); [apply H|reflexivity].
Qed.

Lemma NoDup_map_filter {A B} (key : A -> B) (keep : A -> bool) (l : list A) :
  List.NoDup (map key l) -> List.NoDup (map key (List.filter keep l)).
Proof.
  induction l as [|x l IH]; [intros _; constructor|].
  cbn [map List.filter]. intros H. apply List.NoDup_cons_iff in H as [Hx Hl].
  destruct (keep x); [|exact (IH Hl)].
  cbn [map]. constructor; [|exact (IH Hl)].
  intros Hin. apply Hx. apply in_map_iff in Hin as (y & <- & Hy).
  apply in_map. apply filter_In in Hy as [Hy _]. exact Hy.
Qed.

Lemma keys_wf_delete {A} (key : A -> Z) (cond : A -> bool) (l : list A) seq :
  keys_wf (map key l) seq -> keys_wf (map key (delete_where cond l)) seq.
Proof.
  intros [Hn Hb]. split; [apply NoDup_map_filter; exact Hn|].
  intros z Hz. apply Hb. apply in_map_iff in Hz as (y & <- & Hy).
  apply in_map. apply in_delete_where in Hy as [Hy _]. exact Hy.
Qed.

Lemma usernames_app (l1 l2 : list User.row) :
  usernames (l1 ++ l2) = (usernames l1 ++ usernames l2)%list.
Proof. apply flat_map_app. Qed.

Lemma in_usernames (l : list User.row) (s : string) :
  In s (usernames l) <-> exists u, In u l /\ User.username u = Some s.
Proof.
  unfold usernames. rewrite in_flat_map. split.
  - intros (u & Hu & Hs). exists u. split; [exact Hu|].
    destruct (User.username u); [destruct Hs as [->|[]]; reflexivity|].
    destruct Hs.
  - intros (u & Hu & E). exists u. split; [exact Hu|]. rewrite E. now left.
Qed.

Lemma usernames_delete (cond : User.row -> bool) (l : list User.row) :
  List.NoDup (usernames l) -> List.NoDup (usernames (delete_where cond l)).
Proof.
  unfold delete_where. induction l as [|u l IH]; [intros _; constructor|].
  cbn [List.filter]. change (usernames (u :: l))
    with ((match User.username u with Some s => [s] | None => [] end)
            ++ usernames l)%list.
  intros H. pose proof (List.NoDup_app_remove_l _ _ H) as Hl.
  destruct (negb (cond u)); [|exact (IH Hl)].
  change (usernames (u :: List.filter (fun r => negb (cond r)) l))
    with ((match User.username u with Some s => [s] | None => [] end)
            ++ usernames (List.filter (fun r => negb (cond r)) l))%list.
  destruct (User.username u) as [s|]; [|exact (IH Hl)].
  cbn [app] in H |- *. apply List.NoDup_cons_iff in H as [Hs _].
  constructor; [|exact (IH Hl)].
  intros Hin. apply Hs. apply in_usernames in Hin as (v & Hv & E).
  apply in_usernames. exists v. split; [|exact E].
  apply filter_In in Hv as [Hv _]. exact Hv.
Qed.

Section StoreWf.

Ltac same_tables :=
  apply preserves_statement;
  let H := fresh "H" in
  intros ? ? ? H; injection H as _ <-; exact id.

Ltac open_store_wf :=
  unfold store_wf;
  cbn [users organs organ_requests matches seq_users seq_organs
       seq_organ_requests seq_matches with_users with_organs
       with_organ_requests with_matches].

Lemma store_wf_insert_user u p n a g b c r :
  preserves store_wf (insert_user u p n a g b c r).
Proof.
  apply preserves_statement. intros db i db' H (Hu & Ho & Hq & Hm & Hn).
  destruct (existsb _ (users db)) eqn:E; [discriminate H|].
  injection H as <- <-. open_store_wf.
  refine (conj _ (conj Ho (conj Hq (conj Hm _)))).
  - rewrite map_app. apply keys_wf_insert, Hu.
  - rewrite usernames_app. apply List.NoDup_app; [exact Hn| |].
    + cbn. destruct u; repeat constructor. intros [].
    + intros s Hs Hin. cbn in Hin. destruct u as [s'|]; [|destruct Hin].
      destruct Hin as [->|[]]. apply in_usernames in Hs as (v & Hv & Ev).
      assert (existsb (fun u => sql_eq_text (User.username u) (Some s))
                      (users db) = true); [|congruence].
      apply existsb_exists. exists v. split; [exact Hv|].
      apply sql_eq_text_true. eauto.
Qed.

Lemma store_wf_insert_organ now t b d :
  preserves store_wf (insert_organ now t b d).
Proof.
  apply preserves_statement. intros db i db' [= <- <-] (Hu & Ho & Hq & Hm & Hn).
  open_store_wf. refine (conj Hu (conj _ (conj Hq (conj Hm Hn)))).
  rewrite map_app. apply keys_wf_insert, Ho.
Qed.

Lemma store_wf_insert_request now r t b u :
  preserves store_wf (insert_organ_request now r t b u).
Proof.
  apply preserves_statement. intros db i db' [= <- <-] (Hu & Ho & Hq & Hm & Hn).
  open_store_wf. refine (conj Hu (conj Ho (conj _ (conj Hm Hn)))).
  rewrite map_app. apply keys_wf_insert, Hq.
Qed.

Lemma store_wf_insert_match now d r o q t :
  preserves store_wf (insert_match now d r o q t).
Proof.
  apply preserves_statement. intros db i db' [= <- <-] (Hu & Ho & Hq & Hm & Hn).
  open_store_wf. refine (conj Hu (conj Ho (conj Hq (conj _ Hn)))).
  rewrite map_app. apply keys_wf_insert, Hm.
Qed.

Lemma store_wf_update_request s n id :
  preserves store_wf (update_request_status s n id).
Proof.
  apply preserves_statement. intros db i db' [= <- <-] (Hu & Ho & Hq & Hm & Hn).
  open_store_wf. rewrite map_update_where by reflexivity. tauto.
Qed.

Lemma store_wf_update_organ id :
  preserves store_wf (update_organ_matched id).
Proof.
  apply preserves_statement. intros db i db' [= <- <-] (Hu & Ho & Hq & Hm & Hn).
  open_store_wf. rewrite map_update_where by reflexivity. tauto.
Qed.

Lemma store_wf_deletes id :
  preserves store_wf (delete_matches_of id) /\
  preserves store_wf (delete_requests_of id) /\
  preserves store_wf (delete_organs_of id) /\
  preserves store_wf (delete_user id).
Proof.
  repeat split; apply preserves_statement;
    intros db i db' [= <- <-] (Hu & Ho & Hq & Hm & Hn); open_store_wf.
  - exact (conj Hu (conj Ho (conj Hq (conj (keys_wf_delete _ _ _ _ Hm) Hn)))).
  - exact (conj Hu (conj Ho (conj (keys_wf_delete _ _ _ _ Hq) (conj Hm Hn)))).
  - exact (conj Hu (conj (keys_wf_delete _ _ _ _ Ho) (conj Hq (conj Hm Hn)))).
  - exact (conj (keys_wf_delete _ _ _ _ Hu)
                (conj Ho (conj Hq (conj Hm (usernames_delete _ _ Hn))))).
Qed.

Lemma handler_keeps_store_wf now (c : call) :
  preserves store_wf (handler now c).
Proof.
  destruct c; cbn [handler];
    unfold post_auth_register, post_organs, post_requests,
      post_admin_requests_status, get_admin_matches_suggest,
      post_admin_matches, delete_admin_users, update_request_approved.
  - apply preserves_try_catch; [|intros; apply preserves_ret].
    apply preserves_bind; [|intros; apply preserves_ret].
    apply store_wf_insert_user.
  - apply preserves_bind;
      [apply store_wf_insert_organ|intros; apply preserves_ret].
  - apply preserves_bind;
      [apply store_wf_insert_request|intros; apply preserves_ret].
  - apply preserves_bind;
      [apply store_wf_update_request|intros; apply preserves_ret].
  - apply preserves_bind; [unfold select_request; same_tables|].
    intros [request|]; [|apply preserves_ret].
    apply preserves_bind; [unfold select_available_organs; same_tables|].
    intros rows. apply preserves_bind; [apply preserves_js|].
    intros; apply preserves_ret.
  - apply preserves_try_catch; [|intros; apply preserves_ret].
    apply preserves_bind; [|intros; apply preserves_ret].
    apply preserves_transaction.
    apply preserves_bind; [apply store_wf_insert_match|intros _].
    apply preserves_bind; [apply store_wf_update_organ|intros _].
    apply store_wf_update_request.
  - destruct (store_wf_deletes id) as (H1 & H2 & H3 & H4).
    apply preserves_try_catch; [|intros; apply preserves_ret].
    apply preserves_bind; [|intros; apply preserves_ret].
    apply preserves_transaction.
    apply preserves_bind; [exact H1|intros _].
    apply preserves_bind; [exact H2|intros _].
    apply preserves_bind; [exact H3|intros _]. exact H4.
Qed.

End StoreWf.

Lemma store_wf_of_reachable (db : Db) : reachable db -> store_wf db.
Proof.
  induction 1 as [pw|e db _ IH].
  - assert (K0 : keys_wf [] 0) by (split; [constructor|intros z []]).
    refine (conj _ (conj K0 (conj K0 (conj K0 _)))).
    + split; [repeat constructor; intros []|]. intros z [<-|[]]. cbn. lia.
    + cbn. repeat constructor. intros [].
  - unfold step. apply preserves_serve; [|exact IH].
    apply handler_keeps_store_wf.
Qed.





(** ** [ORDER BY] *)

Lemma insert_by_perm {A} (before : A -> A -> bool) (x : A) (l : list A) :
  Permutation (insert_by before x l) (x :: l).
Proof.
  induction l as [|y l IH]; [reflexivity|]. cbn [insert_by].
  destruct (before x y); [reflexivity|].
  rewrite IH. apply perm_swap.
Qed.

Lemma order_by_perm {A} (before : A -> A -> bool) (l : list A) :
  Permutation (order_by before l) l.
Proof.
  induction l as [|x l IH]; [reflexivity|].
  cbn [order_by foldr]. rewrite insert_by_perm. now constructor.
Qed.

Section Sorting.
Context {A : Type} (before : A -> A -> bool) (R : A -> A -> Prop).
Hypothesis before_sound : forall x y, before x y = true -> R x y.
Hypothesis before_total : forall x y, before x y = false -> R y x.
Hypothesis R_trans : forall x y z, R x y -> R y z -> R x z.

Lemma insert_by_sorted (x : A) (l : list A) :
  StronglySorted R l -> StronglySorted R (insert_by before x l).
Proof.
  induction l as [|y l IH]; intros H.
  - repeat constructor.
  - cbn [insert_by]. apply StronglySorted_inv in H as [Hl Hy].
    destruct (before x y) eqn:E.
    + constructor; [constructor; assumption|].
      constructor; [now apply before_sound|].
      eapply List.Forall_impl; [|exact Hy]. intros z Hz.
      eapply R_trans; [apply before_sound; exact E|exact Hz].
    + constructor; [exact (IH Hl)|].
      eapply Permutation_Forall; [symmetry; apply insert_by_perm|].
      constructor; [now apply before_total|exact Hy].
Qed.

Lemma order_by_sorted (l : list A) : StronglySorted R (order_by before l).
Proof.
  induction l as [|x l IH]; [constructor|].
  cbn [order_by foldr]. apply insert_by_sorted. exact IH.
Qed.
End Sorting.

Lemma string_compare_trans_le (s1 s2 s3 : string) :
  String.compare s1 s2 <> Gt -> String.compare s2 s3 <> Gt ->
  String.compare s1 s3 <> Gt.
Proof.
  revert s2 s3. induction s1 as [|a s1 IH]; intros [|b s2] [|c s3];
    cbn [String.compare]; try congruence.
  unfold Ascii.compare.
  destruct (N.compare_spec (N_of_ascii a) (N_of_ascii b)) as [Eab|Lab|Gab];
    [rewrite Eab| |congruence].
  - destruct (N.compare (N_of_ascii b) (N_of_ascii c));
      [apply IH|congruence|congruence].
  - intros _.
    destruct (N.compare_spec (N_of_ascii b) (N_of_ascii c)) as [Ebc|Lbc|Gbc];
      [intros _|intros _|congruence];
      (rewrite (proj2 (N.compare_lt_iff _ _)) by lia; discriminate).
Qed.

Lemma string_leb_trans (s1 s2 s3 : string) :
  String.leb s1 s2 = true -> String.leb s2 s3 = true ->
  String.leb s1 s3 = true.
Proof.
  unfold String.leb. intros H1 H2.
  pose proof (string_compare_trans_le s1 s2 s3) as H.
  destruct (String.compare s1 s2); [| |discriminate];
    (destruct (String.compare s2 s3); [| |discriminate]);
    (destruct (String.compare s1 s3); [reflexivity|reflexivity|]);
    exfalso; apply H; congruence.
Qed.

Lemma text_le_trans (a b c : text) :
  text_le a b = true -> text_le b c = true -> text_le a c = true.
Proof.
  destruct a as [x|], b as [y|], c as [z|]; cbn; try congruence.
  apply string_leb_trans.
Qed.

Lemma text_le_total (a b : text) : text_le a b = false -> text_le b a = true.
Proof.
  destruct a as [x|], b as [y|]; cbn; try congruence.
  destruct (String.leb_total x y) as [H|H]; congruence.
Qed.

Lemma int_le_trans (a b c : int) :
  int_le a b = true -> int_le b c = true -> int_le a c = true.
Proof.
  destruct a as [x|], b as [y|], c as [z|]; cbn; try congruence.
  rewrite !Z.leb_le. lia.
Qed.

Lemma int_le_total (a b : int) : int_le a b = false -> int_le b a = true.
Proof.
  destruct a as [x|], b as [y|]; cbn; try congruence.
  rewrite Z.leb_gt, Z.leb_le. lia.
Qed.

(** ** The listings *)

Lemma admin_requests_before_sound a b :
  admin_requests_before a b = true -> triage_order a b.
Proof.
  unfold admin_requests_before, triage_order. cbv zeta.
  destruct (int_le (urgency_rank (Request.urgency_level (fst b)))
                   (urgency_rank (Request.urgency_level (fst a)))) eqn:Eba;
    cbn [negb].
  - destruct (int_le (urgency_rank (Request.urgency_level (fst a)))
                     (urgency_rank (Request.urgency_level (fst b)))) eqn:Eab;
      cbn [negb]; [tauto|discriminate].
  - intros _. split; [now apply int_le_total|discriminate].
Qed.

Lemma admin_requests_before_total a b :
  admin_requests_before a b = false -> triage_order b a.
Proof.
  unfold admin_requests_before, triage_order. cbv zeta.
  destruct (int_le (urgency_rank (Request.urgency_level (fst b)))
                   (urgency_rank (Request.urgency_level (fst a)))) eqn:Eba;
    cbn [negb]; [|discriminate].
  destruct (int_le (urgency_rank (Request.urgency_level (fst a)))
                   (urgency_rank (Request.urgency_level (fst b)))) eqn:Eab;
    cbn [negb].
  - intros H. split; [reflexivity|]. intros _. now apply text_le_total.
  - intros _. split; [reflexivity|discriminate].
Qed.

Lemma triage_order_trans a b c :
  triage_order a b -> triage_order b c -> triage_order a c.
Proof.
  unfold triage_order. intros [Hab Dab] [Hbc Dbc]. split.
  - eapply int_le_trans; eassumption.
  - intros Hca.
    assert (Hba : int_le (urgency_rank (Request.urgency_level (fst b)))
                         (urgency_rank (Request.urgency_level (fst a))) = true)
      by (eapply int_le_trans; eassumption).
    assert (Hcb : int_le (urgency_rank (Request.urgency_level (fst c)))
                         (urgency_rank (Request.urgency_level (fst b))) = true)
      by (eapply int_le_trans; eassumption).
    eapply text_le_trans; [exact (Dbc Hcb)|exact (Dab Hba)].
Qed.

Lemma in_admin_requests_rows (db : Db) q n :
  In (q, n) (admin_requests_rows db) <->
  In q (organ_requests db) /\
  exists u, In u (users db) /\ Request.recipient_id q = Some (User.id u) /\
            User.name u = n.
Proof.
  unfold admin_requests_rows. rewrite in_flat_map. split.
  - intros (q' & Hq & Hin). apply in_map_iff in Hin as (u & [= <- <-] & Hu).
    apply filter_In in Hu as [Hu E].
    apply sql_eq_int_true in E as (z & E & [= <-]). eauto 6.
  - intros (Hq & u & Hu & E & <-). exists q. split; [exact Hq|].
    apply in_map_iff. exists u. split; [reflexivity|].
    apply filter_In. split; [exact Hu|]. apply sql_eq_int_true. eauto.
Qed.

(** X6. [GET /api/admin/requests] never writes, and when it answers, the
    rows are the requests whose recipient is a user, each once per such
    user and with that user's name, sorted by urgency rank (requests whose
    urgency is none of the four levels first, then CRITICAL, HIGH, MEDIUM,
    LOW) and, within one rank, newest first. A request whose recipient id
    names no user is not listed. *)
Theorem admin_requests_are_triaged (flt : option fault) (db : Db) :
  match get_admin_requests flt db with
  | Returned rows db' _ =>
      db' = db /\
      StronglySorted triage_order rows /\
      Permutation rows (admin_requests_rows db) /\
      forall q n,
        In (q, n) rows <->
        In q (organ_requests db) /\
        exists u, In u (users db) /\
                  Request.recipient_id q = Some (User.id u) /\
                  User.name u = n
  | Thrown _ db' => db' = db
  end.
Proof.
  unfold get_admin_requests, statement.
  destruct flt as [[[|k] msg]|]; [reflexivity| |];
    (split; [reflexivity|]; split;
     [apply (order_by_sorted _ _ admin_requests_before_sound
                             admin_requests_before_total triage_order_trans)|];
     split; [apply order_by_perm|]; intros q n;
     rewrite order_by_perm; apply in_admin_requests_rows).
Qed.

(** X7. [GET /api/requests/my] never writes, and when it answers, the rows
    are exactly the requests whose recipient id is the caller's, each
    once, newest first; a request without a date comes last. *)
Theorem my_requests_are_the_callers (user_id : int) (flt : option fault)
    (db : Db) :
  match get_requests_my user_id flt db with
  | Returned rows db' _ =>
      db' = db /\
      StronglySorted
        (fun a b => text_le (Request.date_requested b)
                            (Request.date_requested a) = true) rows /\
      Permutation rows
        (List.filter (fun q => sql_eq_int (Request.recipient_id q) user_id)
                     (organ_requests db)) /\
      forall q, In q rows <->
                In q (organ_requests db) /\
                exists i, Request.recipient_id q = Some i /\ user_id = Some i
  | Thrown _ db' => db' = db
  end.
Proof.
  unfold get_requests_my, statement.
  destruct flt as [[[|k] msg]|]; [reflexivity| |];
    (split; [reflexivity|]; split;
     [apply order_by_sorted;
      [intros x y H; exact H
      |intros x y H; now apply text_le_total
      |intros x y z H1 H2; eapply text_le_trans; eassumption]|];
     split; [apply order_by_perm|]; intros q;
     rewrite order_by_perm, filter_In, sql_eq_int_true; reflexivity).
Qed.

Lemma get_organs_runs (type bloodGroup : option string) (flt : option fault)
    (db : Db) :
  js_truthy bloodGroup = false ->
  get_organs type bloodGroup flt db =
  statement (fun db =>
    inr (flat_map
           (fun o =>
              map (fun u => (o, User.name u))
                  (List.filter
                     (fun u =>
                        sql_eq_int (Organ.donor_id o) (Some (User.id u))
                        && (sql_eq_text (Organ.availability_status o)
                                        (Some "AVAILABLE")
                            && (if js_truthy type
                                then sql_eq_text (Organ.organ_type o) type
                                     && true
                                else true)))
                     (users db)))
           (organs db), db)) flt db.
Proof.
  intros Hb. unfold get_organs, organs_conditions. rewrite Hb.
  destruct type as [t|]; cbn [js_truthy]; [destruct (String.eqb t "")|];
    reflexivity.
Qed.

(** X8. [GET /api/organs] without a blood-group filter never writes, and
    when it answers it lists exactly the organs that are [AVAILABLE] and
    whose donor is a user, with the donor's name; a non-empty [type]
    keeps the organs of that type only, an empty [type] filters nothing.
    An organ whose donor id names no user is not listed. *)
Theorem organs_listing_lists_available (type bloodGroup : option string)
    (flt : option fault) (db : Db) :
  js_truthy bloodGroup = false ->
  match get_organs type bloodGroup flt db with
  | Returned rows db' _ =>
      db' = db /\
      forall o n,
        In (o, n) rows <->
        In o (organs db) /\
        Organ.availability_status o = Some "AVAILABLE" /\
        (js_truthy type = true -> Organ.organ_type o = type) /\
        exists u, In u (users db) /\ Organ.donor_id o = Some (User.id u) /\
                  User.name u = n
  | Thrown _ db' => db' = db
  end.
Proof.
  intros Hb. rewrite (get_organs_runs _ _ _ _ Hb). unfold statement.
  assert (Hrows : forall o n,
    In (o, n)
       (flat_map
          (fun o =>
             map (fun u => (o, User.name u))
                 (List.filter
                    (fun u =>
                       sql_eq_int (Organ.donor_id o) (Some (User.id u))
                       && (sql_eq_text (Organ.availability_status o)
                                       (Some "AVAILABLE")
                           && (if js_truthy type
                               then sql_eq_text (Organ.organ_type o) type
                                    && true
                               else true)))
                    (users db)))
          (organs db)) <->
    In o (organs db) /\
    Organ.availability_status o = Some "AVAILABLE" /\
    (js_truthy type = true -> Organ.organ_type o = type) /\
    exists u, In u (users db) /\ Organ.donor_id o = Some (User.id u) /\
              User.name u = n).
  { intros o n. rewrite in_flat_map. split.
    - intros (o' & Ho & Hin).
      apply in_map_iff in Hin as (u & [= <- <-] & Hu).
      apply filter_In in Hu as [Hu E].
      apply andb_true_iff in E as [Ed E]. apply andb_true_iff in E as [Es Et].
      apply sql_eq_int_true in Ed as (z & Ed & [= <-]).
      apply sql_eq_text_true in Es as (s & Es & [= <-]).
      split; [exact Ho|]. split; [exact Es|]. split; [|eauto].
      intros Ht. rewrite Ht in Et. apply andb_true_iff in Et as [Et _].
      apply sql_eq_text_true in Et as (t & -> & ->). reflexivity.
    - intros (Ho & Es & Et & u & Hu & Ed & <-). exists o. split; [exact Ho|].
      apply in_map_iff. exists u. split; [reflexivity|].
      apply filter_In. split; [exact Hu|].
      apply andb_true_iff. split; [apply sql_eq_int_true; eauto|].
      apply andb_true_iff. split; [apply sql_eq_text_true; eauto|].
      destruct (js_truthy type) eqn:Ht; [|reflexivity].
      apply andb_true_iff. split; [|reflexivity].
      specialize (Et eq_refl). apply sql_eq_text_true.
      destruct type as [t|]; [eauto|discriminate Ht]. }
  destruct flt as [[[|k] msg]|]; [reflexivity| |];
    (split; [reflexivity|exact Hrows]).
Qed.

Lemma organs_listing_lists_available_witness :
  match get_organs (Some "KIDNEY") None None ward with
  | Returned rows db' _ =>
      db' = ward /\
      forall o n,
        In (o, n) rows <->
        In o (organs ward) /\
        Organ.availability_status o = Some "AVAILABLE" /\
        (js_truthy (Some "KIDNEY") = true ->
         Organ.organ_type o = Some "KIDNEY") /\
        exists u, In u (users ward) /\ Organ.donor_id o = Some (User.id u) /\
                  User.name u = n
  | Thrown _ db' => db' = ward
  end.
Proof.
  exact (organs_listing_lists_available (Some "KIDNEY") None None ward eq_refl).
Defined.

(** X9. [GET /api/organs] with a non-empty [bloodGroup] filter never
    lists anything: both joined tables have a [blood_group] column, so the
    unqualified name in [AND blood_group = ?] is ambiguous and
    [db.prepare] throws, whatever the store holds and whatever the other
    filter is. Nothing is written. *)
Theorem organs_blood_group_filter_fails (type bloodGroup : option string)
    (flt : option fault) (db : Db) :
  js_truthy bloodGroup = true ->
  get_organs type bloodGroup flt db =
  Thrown (SqliteError "ambiguous column name: blood_group") db.
Proof.
  intros Hb. unfold get_organs, organs_conditions. rewrite Hb.
  destruct type as [t|]; cbn [js_truthy]; [destruct (String.eqb t "")|];
    reflexivity.
Qed.

Lemma organs_blood_group_filter_fails_witness :
  get_organs (Some "KIDNEY") (Some "O-") None ward =
  Thrown (SqliteError "ambiguous column name: blood_group") ward.
Proof.
  exact (organs_blood_group_filter_fails (Some "KIDNEY") (Some "O-") None ward
                                         eq_refl).
Defined.

(** X10. [GET /api/admin/users] never writes and lists exactly the users
    whose role is a value other than [ADMIN], without their password; a
    user stored with no role is not listed. *)
Theorem admin_users_lists_other_roles (flt : option fault) (db : Db) :
  match get_admin_users flt db with
  | Returned rows db' _ =>
      db' = db /\
      forall a,
        In a rows <->
        exists u r,
          In u (users db) /\ User.role u = Some r /\ r <> "ADMIN" /\
          a = Account.mk (User.id u) (User.username u) (User.name u)
                         (User.role u) (User.blood_group u) (User.contact u)
  | Thrown _ db' => db' = db
  end.
Proof.
  assert (Hrole : forall u,
            sql_ne_text (User.role u) (Some "ADMIN") = true <->
            exists r, User.role u = Some r /\ r <> "ADMIN").
  { intros u. unfold sql_ne_text. destruct (User.role u) as [r|].
    - rewrite negb_true_iff, bool_decide_eq_false. split.
      + intros H. exists r. split; [reflexivity|exact H].
      + intros (r' & [= <-] & H). exact H.
    - split; [discriminate|]. intros (r & H & _). discriminate H. }
  unfold get_admin_users, statement.
  destruct flt as [[[|k] msg]|]; [reflexivity| |];
    (split; [reflexivity|]; intros a; rewrite in_map_iff; split;
     [intros (u & <- & Hu); apply filter_In in Hu as [Hu E];
      apply Hrole in E as (r & E & Hne); eauto 6
     |intros (u & r & Hu & E & Hne & ->); exists u;
      split; [reflexivity|]; apply filter_In; split; [exact Hu|];
      apply Hrole; eauto]).
Qed.

(** ** Statistics *)

Lemma get_admin_stats_runs (db : Db) :
  get_admin_stats None db =
  Returned
    (Stats
       (count_where (fun u => sql_eq_text (User.role u) (Some "DONOR"))
                    (users db))
       (count_where (fun u => sql_eq_text (User.role u) (Some "RECIPIENT"))
                    (users db))
       (count_where (fun q => sql_eq_text (Request.status q) (Some "PENDING"))
                    (organ_requests db))
       (count_where (fun _ => true) (matches db)))
    db None.
Proof. reflexivity. Qed.

Lemma pending_after_approval (l : list Request.row) (req : Request.row) :
  List.NoDup (map Request.id l) -> In req l ->
  Request.status req = Some "PENDING" ->
  (length
     (List.filter
        (fun q => sql_eq_text (Request.status q) (Some "PENDING"))
        (update_where
           (fun q => sql_eq_id (Request.id q) (Some (Request.id req)))
           (Request.set_status_note (Some "APPROVED")
                                    (Some "Matched with compatible donor"))
           l)) + 1)%nat =
  length (List.filter
            (fun q => sql_eq_text (Request.status q) (Some "PENDING")) l).
Proof.
  induction l as [|x l IH]; [intros _ []|].
  cbn [map]. intros Hn Hin Hs. apply List.NoDup_cons_iff in Hn as [Hx Hl].
  cbn [update_where map]. fold (update_where
    (fun q => sql_eq_id (Request.id q) (Some (Request.id req)))
    (Request.set_status_note (Some "APPROVED")
                             (Some "Matched with compatible donor")) l).
  destruct (sql_eq_id (Request.id x) (Some (Request.id req))) eqn:E.
  - apply sql_eq_id_true in E. injection E as E.
    assert (x = req) as ->.
    { destruct Hin as [H|H]; [exact H|]. exfalso. apply Hx.
      rewrite <- E. apply in_map. exact H. }
    rewrite update_where_none.
    + cbn [List.filter Request.set_status_note Request.status].
      rewrite Hs.
      change (sql_eq_text (Some "APPROVED") (Some "PENDING")) with false.
      change (sql_eq_text (Some "PENDING") (Some "PENDING")) with true.
      cbn [length]. lia.
    + intros y Hy. apply sql_eq_id_false_iff. intros Ey. apply Hx.
      rewrite <- Ey. apply in_map. exact Hy.
  - destruct Hin as [->|Hin].
    + rewrite (proj2 (sql_eq_id_true _ _) eq_refl) in E. discriminate.
    + specialize (IH Hl Hin Hs). cbn [List.filter].
      destruct (sql_eq_text (Request.status x) (Some "PENDING"));
        cbn [length]; lia.
Qed.

(** X11. In a well-formed store (every reachable store is one), approving
    a request that exists and is [PENDING] moves the admin statistics by
    exactly one: [pending] drops by one, [matches] grows by one, and the
    donor and recipient counts stay. *)
Theorem approval_shows_in_stats (now : string) (d r o : int) (t : text)
    (req : Request.row) (db : Db) :
  store_wf db -> In req (organ_requests db) ->
  Request.status req = Some "PENDING" ->
  let db' :=
    snd (step (Event now None (Allocate d r o (Some (Request.id req)) t)) db) in
  exists s s',
    get_admin_stats None db = Returned s db None /\
    get_admin_stats None db' = Returned s' db' None /\
    pending s' = pending s - 1 /\
    matches_count s' = matches_count s + 1 /\
    donors s' = donors s /\ recipients s' = recipients s.
Proof.
  intros (_ & _ & [Hn _] & _) Hin Hs. cbv zeta.
  do 2 eexists. rewrite !get_admin_stats_runs.
  split; [reflexivity|]. split; [reflexivity|].
  rewrite allocate_runs.
  cbn [snd pending matches_count donors recipients users organ_requests
       matches].
  unfold count_where. split; [|split; [|split; reflexivity]].
  - pose proof (pending_after_approval _ _ Hn Hin Hs). lia.
  - rewrite filter_app_length. cbn. lia.
Qed.

Lemma approval_shows_in_stats_witness :
  let db' := snd (step first_approval ward) in
  exists s s',
    get_admin_stats None ward = Returned s ward None /\
    get_admin_stats None db' = Returned s' db' None /\
    pending s' = pending s - 1 /\
    matches_count s' = matches_count s + 1 /\
    donors s' = donors s /\ recipients s' = recipients s.
Proof.
  refine (approval_shows_in_stats
            "2024-05-01 12:00:00" (Some 2) (Some 3) (Some 1) (Some "KIDNEY")
            (Request.mk 1 (Some 3) (Some "KIDNEY") (Some "AB+")
                        (Some "CRITICAL") (Some "PENDING")
                        (Some "2024-05-01 12:00:00") None)
            ward (store_wf_of_reachable _ ward_reachable) _ eq_refl).
  left. reflexivity.
Defined.

Lemma in_admin_matches_rows (db : Db) m dn rn :
  In (m, dn, rn) (admin_matches_rows db) <->
  In m (matches db) /\
  (exists d, In d (users db) /\ Match.donor_id m = Some (User.id d) /\
             User.name d = dn) /\
  (exists r, In r (users db) /\ Match.recipient_id m = Some (User.id r) /\
             User.name r = rn).
Proof.
  unfold admin_matches_rows. rewrite in_flat_map. split.
  - intros (m' & Hm & Hin). apply in_flat_map in Hin as (d & Hd & Hin).
    apply in_map_iff in Hin as (r & [= <- <- <-] & Hr).
    apply filter_In in Hd as [Hd Ed]. apply filter_In in Hr as [Hr Er].
    apply sql_eq_int_true in Ed as (z & Ed & [= <-]).
    apply sql_eq_int_true in Er as (z & Er & [= <-]).
    split; [exact Hm|]. split; eauto.
  - intros (Hm & (d & Hd & Ed & <-) & (r & Hr & Er & <-)).
    exists m. split; [exact Hm|]. apply in_flat_map. exists d. split.
    + apply filter_In. split; [exact Hd|]. apply sql_eq_int_true. eauto.
    + apply in_map_iff. exists r. split; [reflexivity|].
      apply filter_In. split; [exact Hr|]. apply sql_eq_int_true. eauto.
Qed.

(** X12. [GET /api/admin/matches] never writes and lists a match only
    when both its donor id and its recipient id name users, newest first.
    The allocation stores whatever ids it is sent, so a match recorded
    with a donor or recipient id that names no user is counted by the
    statistics but never appears in the list. *)
Theorem admin_matches_hide_dangling (flt : option fault) (db : Db) :
  match get_admin_matches flt db with
  | Returned rows db' _ =>
      db' = db /\
      StronglySorted
        (fun a b => text_le (Match.matched_on (fst (fst b)))
                            (Match.matched_on (fst (fst a))) = true) rows /\
      forall m dn rn,
        In (m, dn, rn) rows <->
        In m (matches db) /\
        (exists d, In d (users db) /\ Match.donor_id m = Some (User.id d) /\
                   User.name d = dn) /\
        (exists r, In r (users db) /\
                   Match.recipient_id m = Some (User.id r) /\
                   User.name r = rn)
  | Thrown _ db' => db' = db
  end /\
  forall now d r o q t,
    (forall u, In u (users db) -> d <> Some (User.id u)) ->
    let db' := snd (step (Event now None (Allocate d r o q t)) db) in
    admin_matches_rows db' = admin_matches_rows db /\
    count_where (fun _ => true) (matches db') =
      count_where (fun _ => true) (matches db) + 1.
Proof.
  split.
  - unfold get_admin_matches, statement.
    destruct flt as [[[|k] msg]|]; [reflexivity| |];
      (split; [reflexivity|]; split;
       [apply order_by_sorted;
        [intros x y H; exact H
        |intros x y H; now apply text_le_total
        |intros x y z H1 H2; eapply text_le_trans; eassumption]|];
       intros m dn rn; rewrite order_by_perm; apply in_admin_matches_rows).
  - intros now d r o q t Hd. cbv zeta. rewrite allocate_runs.
    cbn [snd]. unfold admin_matches_rows, count_where.
    cbn [matches users]. rewrite flat_map_app, filter_app_length. split.
    + assert (Hnil : List.filter
                       (fun d0 => sql_eq_int d (Some (User.id d0)))
                       (users db) = []).
      { induction (users db) as [|u l IH]; [reflexivity|].
        cbn [List.filter].
        destruct (sql_eq_int d (Some (User.id u))) eqn:E.
        - apply sql_eq_int_true in E as (z & -> & [= <-]).
          elim (Hd u (or_introl eq_refl) eq_refl).
        - apply IH. intros v Hv. apply Hd. now right. }
      cbn [flat_map Match.donor_id]. rewrite Hnil. cbn [flat_map].
      now rewrite !app_nil_r.
    + cbn. lia.
Qed.

(** ** Authentication and authorisation *)

Section Router.
Variable jwt_verify : string -> option claims.
Variable jwt_sign : claims -> string.
Variable bcrypt_compare : text -> text -> bool.

Lemma rejected_runs (s : Z) (e : string) (flt : option fault) (db : Db) :
  rejected s e flt db = Returned (ApiRes s (Body (JsonError e))) db flt.
Proof. reflexivity. Qed.

(** X13. Every admin route answers 403 to a caller whose token carries a
    role other than [ADMIN], before any statement runs: nothing is read or
    written, whatever the request holds. *)
Theorem admin_routes_refuse_other_roles (now : string) (flt : option fault)
    (authorization : option string) (req : api_request) (db : Db)
    (user : claims) :
  is_admin_route req = true ->
  authenticate jwt_verify authorization = Pass user ->
  claim_role user <> Some "ADMIN" ->
  api_step jwt_verify jwt_sign bcrypt_compare now flt authorization req db =
  (Answered (ApiRes 403 (Body (JsonError "Forbidden"))), db).
Proof.
  intros Hadmin Hauth Hrole.
  assert (Hgate : isAdmin user = Reject 403 "Forbidden").
  { unfold isAdmin. destruct (claim_role user) as [r|]; [|reflexivity].
    destruct (String.eqb_spec r "ADMIN") as [->|_]; [|reflexivity].
    elim Hrole. reflexivity. }
  unfold api_step, route.
  destruct req; try discriminate Hadmin;
    unfold guarded; rewrite Hauth, Hgate, rejected_runs; reflexivity.
Qed.

(** X14. Every route but health, ping, register and login answers 401
    when the request carries no usable token (no [Authorization] header,
    no second word in it, an empty second word, or a token that
    [jwt.verify] refuses), before any statement runs. *)
Theorem closed_routes_refuse_without_token (now : string)
    (flt : option fault) (authorization : option string) (req : api_request)
    (db : Db) :
  is_open_route req = false ->
  (forall token, bearer_token authorization = Some token ->
                 token <> "" -> jwt_verify token = None) ->
  exists e,
    api_step jwt_verify jwt_sign bcrypt_compare now flt authorization req db =
    (Answered (ApiRes 401 (Body (JsonError e))), db).
Proof.
  intros Hopen Htoken.
  assert (Hauth : exists e, authenticate jwt_verify authorization
                            = Reject 401 e).
  { unfold authenticate.
    destruct (bearer_token authorization) as [token|]; [|eauto].
    destruct (String.eqb_spec token "") as [->|Hne]; [eauto|].
    rewrite (Htoken token eq_refl Hne). eauto. }
  destruct Hauth as [e Hauth]. exists e. unfold api_step, route.
  destruct req; try discriminate Hopen;
    unfold guarded; rewrite Hauth, rejected_runs; reflexivity.
Qed.
End Router.

Lemma admin_routes_refuse_other_roles_witness :
  api_step (fun _ => Some (Claims (Some 2) (Some "donor1") (Some "DONOR")))
           (fun _ => "t") (fun _ _ => false)
           "2024-05-01 12:00:00" None (Some "Bearer t")
           (DeleteAdminUsers (Some 3)) ward =
  (Answered (ApiRes 403 (Body (JsonError "Forbidden"))), ward).
Proof.
  apply (admin_routes_refuse_other_roles
           (fun _ => Some (Claims (Some 2) (Some "donor1") (Some "DONOR")))
           (fun _ => "t") (fun _ _ => false) _ _ _ _ _
           (Claims (Some 2) (Some "donor1") (Some "DONOR")));
    [reflexivity|reflexivity|discriminate].
Defined.

Lemma closed_routes_refuse_without_token_witness :
  exists e,
    api_step (fun _ => None) (fun _ => "t") (fun _ _ => false)
             "2024-05-01 12:00:00" None (Some "Bearer")
             (PostOrgans (Some "KIDNEY") (Some "O-")) ward =
    (Answered (ApiRes 401 (Body (JsonError e))), ward).
Proof.
  apply closed_routes_refuse_without_token; [reflexivity|].
  intros token _ _. reflexivity.
Defined.

Lemma split_on_cons (sep : ascii) (c : ascii) (s : string) :
  c <> sep ->
  split_on sep (String c s) =
  match split_on sep s with
  | [] => [String c EmptyString]
  | w :: ws => String c w :: ws
  end.
Proof.
  intros H. cbn [split_on].
  destruct (Ascii.eqb_spec c sep) as [E|_]; [elim (H E)|reflexivity].
Qed.

Lemma split_on_nonempty (sep : ascii) (s : string) : split_on sep s <> [].
Proof.
  induction s as [|c s IH]; [discriminate|]. cbn [split_on].
  destruct (Ascii.eqb c sep); [discriminate|].
  destruct (split_on sep s); [elim IH; reflexivity|discriminate].
Qed.

(** Splitting what starts with a word free of the separator. *)
Lemma split_on_word (sep : ascii) (word rest : string) :
  (forall c, In c (list_ascii_of_string word) -> c <> sep) ->
  split_on sep (word ++ String sep rest) = word :: split_on sep rest.
Proof.
  induction word as [|c word IH]; intros H.
  - change (split_on sep (String sep rest)
            = [EmptyString] ++ split_on sep rest)%list.
    cbn [split_on]. rewrite Ascii.eqb_refl. reflexivity.
  - change (split_on sep (String c (word ++ String sep rest))
            = String c word :: split_on sep rest).
    rewrite split_on_cons by (apply H; now left).
    rewrite IH by (intros x Hx; apply H; now right). reflexivity.
Qed.

(** X15. [authenticate] never looks at the scheme word of the
    [Authorization] header: whatever word without a space comes first,
    the token is what follows the first space, up to the next one. *)
Theorem authenticate_ignores_scheme (jwt_verify : string -> option claims)
    (scheme rest : string) :
  (forall c, In c (list_ascii_of_string scheme) -> c <> " "%char) ->
  authenticate jwt_verify (Some (scheme ++ " " ++ rest)) =
  authenticate jwt_verify (Some ("Bearer " ++ rest)) /\
  bearer_token (Some (scheme ++ " " ++ rest)) = head (split_on " " rest).
Proof.
  intros H.
  assert (E : forall word,
            (forall c, In c (list_ascii_of_string word) -> c <> " "%char) ->
            bearer_token (Some (word ++ " " ++ rest))
            = head (split_on " " rest)).
  { intros word Hw. unfold bearer_token.
    change (word ++ " " ++ rest) with (word ++ String " " rest).
    rewrite (split_on_word " " word rest Hw). cbn [nth_error].
    destruct (split_on " " rest); reflexivity. }
  split; [|exact (E scheme H)].
  unfold authenticate. rewrite (E scheme H).
  change ("Bearer " ++ rest) with ("Bearer" ++ " " ++ rest).
  rewrite (E "Bearer"); [reflexivity|].
  intros c Hc. cbn in Hc.
  repeat (destruct Hc as [<-|Hc]; [discriminate|]). destruct Hc.
Qed.

Lemma authenticate_ignores_scheme_witness :
  authenticate (fun t => if String.eqb t "abc"
                         then Some (Claims (Some 1) (Some "admin")
                                           (Some "ADMIN"))
                         else None)
               (Some ("Basic" ++ " " ++ "abc def")) =
  Pass (Claims (Some 1) (Some "admin") (Some "ADMIN")).
Proof.
  rewrite (proj1 (authenticate_ignores_scheme _ "Basic" "abc def"
    ltac:(intros c Hc; cbn in Hc;
          repeat (destruct Hc as [<-|Hc]; [discriminate|]); destruct Hc))).
  reflexivity.
Defined.

Ltac reads_only :=
  apply preserves_statement;
  let H := fresh "H" in
  intros ? ? ? H; injection H as _ <-; exact id.

Lemma preserves_answered (P : Db -> Prop) (h : M response) :
  preserves P h -> preserves P (answered h).
Proof.
  intros H. apply preserves_bind; [exact H|intros; apply preserves_ret].
Qed.

Lemma preserves_listed (P : Db -> Prop) {A} (h : M A) (f : A -> api_payload) :
  preserves P h -> preserves P (listed h f).
Proof.
  intros H. apply preserves_bind; [exact H|intros; apply preserves_ret].
Qed.

Lemma preserves_guarded (P : Db -> Prop) jwt_verify admin authorization h :
  (forall user, preserves P (h user)) ->
  preserves P (guarded jwt_verify admin authorization h).
Proof.
  intros H. unfold guarded, rejected.
  destruct (authenticate jwt_verify authorization) as [user|s e];
    [|apply preserves_ret].
  destruct admin; [|apply H].
  destruct (isAdmin user); [apply H|apply preserves_ret].
Qed.

(** X16. No [GET] route ever writes: whatever the token, the parameters
    and the storage faults, and whether the route answers or throws, the
    store after the request is the store before it. *)
Theorem get_routes_never_write (jwt_verify : string -> option claims)
    (jwt_sign : claims -> string) (bcrypt_compare : text -> text -> bool)
    (now : string) (flt : option fault) (authorization : option string)
    (req : api_request) (db : Db) :
  is_get_route req = true ->
  snd (api_step jwt_verify jwt_sign bcrypt_compare now flt authorization
                req db) = db.
Proof.
  intros Hget.
  assert (H : preserves (fun d => d = db)
                (route jwt_verify jwt_sign bcrypt_compare now authorization
                       req)).
  { destruct req; try discriminate Hget; cbn [route];
      try apply preserves_ret;
      apply preserves_guarded; intros user;
      first [apply preserves_listed|apply preserves_answered].
    - unfold get_auth_me. reads_only.
    - unfold get_organs. apply preserves_bind; [apply preserves_js|].
      intros resolved. reads_only.
    - unfold get_requests_my. reads_only.
    - unfold get_admin_stats.
      repeat (apply preserves_bind; [reads_only|intros ?]).
      apply preserves_ret.
    - unfold get_admin_requests. reads_only.
    - unfold get_admin_matches_suggest.
      apply preserves_bind; [unfold select_request; reads_only|].
      intros [request|]; [|apply preserves_ret].
      apply preserves_bind; [unfold select_available_organs; reads_only|].
      intros rows. apply preserves_bind; [apply preserves_js|].
      intros; apply preserves_ret.
    - unfold get_admin_matches. reads_only.
    - unfold get_admin_users. reads_only. }
  unfold api_step. specialize (H flt db eq_refl).
  destruct (route _ _ _ _ _ _ flt db); exact H.
Qed.

Lemma get_routes_never_write_witness :
  snd (api_step (fun _ => Some (Claims (Some 1) (Some "admin") (Some "ADMIN")))
                (fun _ => "t") (fun _ _ => false)
                "2024-05-01 12:00:00" (Some (mkFault 1 "disk I/O error"))
                (Some "Bearer t") GetAdminStats ward) = ward.
Proof. apply get_routes_never_write. reflexivity. Defined.

(** ** Login *)

Lemma filter_none {A} (p : A -> bool) (l : list A) :
  existsb p l = false -> List.filter p l = [].
Proof.
  induction l as [|x l IH]; [reflexivity|]. cbn [existsb List.filter].
  destruct (p x); [discriminate|]. exact IH.
Qed.

Lemma head_filter_some {A} (p : A -> bool) (l : list A) (x : A) :
  head (List.filter p l) = Some x -> In x l /\ p x = true.
Proof.
  intros H. apply filter_In. destruct (List.filter p l); [discriminate|].
  injection H as ->. now left.
Qed.

Lemma username_not_taken (username : string) (l : list User.row) :
  (forall u, In u l -> User.username u <> Some username) ->
  existsb (fun u => sql_eq_text (User.username u) (Some username)) l = false.
Proof.
  intros H. apply not_true_is_false. intros E.
  apply existsb_exists in E as (u & Hu & E).
  apply sql_eq_text_true in E as (s & E & [= <-]). exact (H u Hu E).
Qed.

(** X17. Registration does not check the role: a caller who registers a
    free username with role [ADMIN] gets an account, and logging in with
    the same password then yields a token signed over that account's id
    and the role [ADMIN], which [isAdmin] lets through. *)
Theorem self_registered_admin_is_admin (jwt_verify : string -> option claims)
    (jwt_sign : claims -> string) (bcrypt_compare : text -> text -> bool)
    (now : string) (authorization : option string) (username : string)
    (password hashedPassword name : text) (age : int)
    (gender blood_group contact : text) (db : Db) :
  (forall u, In u (users db) -> User.username u <> Some username) ->
  bcrypt_compare password hashedPassword = true ->
  exists i db1,
    api_step jwt_verify jwt_sign bcrypt_compare now None authorization
             (PostAuthRegister (Some username) hashedPassword name age gender
                               blood_group contact (Some "ADMIN")) db =
      (Answered (ApiRes 200 (Body (JsonId i))), db1) /\
    api_step jwt_verify jwt_sign bcrypt_compare now None authorization
             (PostAuthLogin (Some username) password) db1 =
      (Answered
         (ApiRes 200
            (LoginOk (jwt_sign (Claims (Some i) (Some username)
                                       (Some "ADMIN")))
                     (Profile.mk i (Some username) name age gender
                                 blood_group contact (Some "ADMIN")))),
       db1) /\
    isAdmin (Claims (Some i) (Some username) (Some "ADMIN")) =
      Pass (Claims (Some i) (Some username) (Some "ADMIN")).
Proof.
  intros Hfree Hpw. apply username_not_taken in Hfree.
  do 2 eexists. split; [|split; [|reflexivity]].
  - unfold api_step, route, answered, post_auth_register, try_catch, bind,
      insert_user, statement. rewrite Hfree. reflexivity.
  - unfold api_step, route, post_auth_login, select_user_by_username, bind,
      statement. cbn [users with_users].
    rewrite List.filter_app, (filter_none _ _ Hfree).
    cbn [app List.filter User.username].
    rewrite (proj2 (sql_eq_text_true (Some username) (Some username)))
      by eauto.
    cbn [head User.password]. rewrite Hpw. reflexivity.
Qed.

Lemma self_registered_admin_is_admin_witness :
  exists i db1,
    api_step (fun _ => None) (fun _ => "t")
             (fun p h => bool_decide (p = Some "pw" /\ h = Some "$2a$10$x"))
             "2024-05-01 12:00:00" None None
             (PostAuthRegister (Some "mallory") (Some "$2a$10$x")
                               (Some "Mallory") (Some 33) None None None
                               (Some "ADMIN")) ward =
      (Answered (ApiRes 200 (Body (JsonId i))), db1) /\
    api_step (fun _ => None) (fun _ => "t")
             (fun p h => bool_decide (p = Some "pw" /\ h = Some "$2a$10$x"))
             "2024-05-01 12:00:00" None None
             (PostAuthLogin (Some "mallory") (Some "pw")) db1 =
      (Answered
         (ApiRes 200
            (LoginOk "t"
                     (Profile.mk i (Some "mallory") (Some "Mallory") (Some 33)
                                 None None None (Some "ADMIN")))),
       db1) /\
    isAdmin (Claims (Some i) (Some "mallory") (Some "ADMIN")) =
      Pass (Claims (Some i) (Some "mallory") (Some "ADMIN")).
Proof.
  apply (self_registered_admin_is_admin
           (fun _ => None) (fun _ => "t")
           (fun p h => bool_decide (p = Some "pw" /\ h = Some "$2a$10$x"))).
  - intros u [<-|[<-|[<-|[<-|[]]]]]; discriminate.
  - reflexivity.
Defined.

(** X18. A login with an unknown username and a login with a wrong
    password get the same answer, 401 with [Invalid credentials], and
    write nothing; so does a login whose body has no username. *)
Theorem login_failures_look_alike (jwt_verify : string -> option claims)
    (jwt_sign : claims -> string) (bcrypt_compare : text -> text -> bool)
    (now : string) (authorization : option string) (username password : text)
    (db : Db) :
  (forall u, In u (users db) -> User.username u = username ->
             username <> None ->
             bcrypt_compare password (User.password u) = false) ->
  api_step jwt_verify jwt_sign bcrypt_compare now None authorization
           (PostAuthLogin username password) db =
  (Answered (ApiRes 401 (Body (JsonError "Invalid credentials"))), db).
Proof.
  intros H. unfold api_step, route, post_auth_login, select_user_by_username,
    bind, statement.
  destruct (head (List.filter _ (users db))) as [u|] eqn:E; [|reflexivity].
  apply head_filter_some in E as [Hu E].
  apply sql_eq_text_true in E as (s & E1 & E2).
  rewrite (H u Hu); [reflexivity|congruence|congruence].
Qed.

Lemma login_failures_look_alike_witness :
  api_step (fun _ => None) (fun _ => "t") (fun _ _ => false)
           "2024-05-01 12:00:00" None None
           (PostAuthLogin (Some "donor1") (Some "guess")) ward =
  (Answered (ApiRes 401 (Body (JsonError "Invalid credentials"))), ward) /\
  api_step (fun _ => None) (fun _ => "t") (fun _ _ => false)
           "2024-05-01 12:00:00" None None
           (PostAuthLogin (Some "nobody") (Some "guess")) ward =
  (Answered (ApiRes 401 (Body (JsonError "Invalid credentials"))), ward).
Proof.
  split; apply login_failures_look_alike; intros; reflexivity.
Defined.

(** ** Start-up *)

Lemma started_with_admin (pw : string) (db : Db) (u : User.row) :
  head (List.filter (fun u => sql_eq_text (User.username u) (Some "admin"))
                    (users db)) = Some u ->
  started pw db = db.
Proof.
  intros H. unfold started, initDb, bind, statement. rewrite H. reflexivity.
Qed.

Lemma started_without_admin (pw : string) (db : Db) :
  existsb (fun u => sql_eq_text (User.username u) (Some "admin")) (users db)
  = false ->
  started pw db =
  with_users
    (users db ++
       [User.mk (next_rowid (seq_users db) (map User.id (users db)))
                (Some "admin") (Some pw) (Some "System Admin") (Some 35)
                (Some "Male") (Some "O+") (Some "1234567890") (Some "ADMIN")])
    (next_rowid (seq_users db) (map User.id (users db))) db.
Proof.
  intros H. unfold started, initDb, bind, insert_user, statement.
  rewrite (filter_none _ _ H). cbn [head tick]. rewrite H. reflexivity.
Qed.

(** X19. Start-up is idempotent and never touches the allocation tables:
    after [initDb] some user is named [admin]; a store that already has
    one, whatever that user's role, is left exactly as it is; running
    [initDb] again, even with another password hash, changes nothing; and
    on the empty tables of a new database file it yields the initial
    store. *)
Theorem initDb_is_idempotent (pw pw' : string) (db : Db) :
  started pw' (started pw db) = started pw db /\
  (exists u, In u (users (started pw db)) /\ User.username u = Some "admin") /\
  ((exists u, In u (users db) /\ User.username u = Some "admin") ->
   started pw db = db) /\
  organs (started pw db) = organs db /\
  organ_requests (started pw db) = organ_requests db /\
  matches (started pw db) = matches db /\
  started pw empty_db = init_db pw.
Proof.
  assert (Hhas : forall d,
            (exists u, In u (users d) /\ User.username u = Some "admin") ->
            forall p, started p d = d).
  { intros d (u & Hu & E) p.
    destruct (head (List.filter
                      (fun u => sql_eq_text (User.username u) (Some "admin"))
                      (users d))) as [v|] eqn:Ev;
      [exact (started_with_admin p d v Ev)|].
    exfalso.
    assert (Hin : In u (List.filter
                          (fun u => sql_eq_text (User.username u)
                                                (Some "admin")) (users d)))
      by (apply filter_In; split; [exact Hu|apply sql_eq_text_true; eauto]).
    destruct (List.filter _ (users d)); [destruct Hin|discriminate Ev]. }
  assert (Hafter : exists u, In u (users (started pw db)) /\
                             User.username u = Some "admin").
  { destruct (existsb (fun u => sql_eq_text (User.username u) (Some "admin"))
                      (users db)) eqn:E.
    - apply existsb_exists in E as (u & Hu & E).
      apply sql_eq_text_true in E as (s & E & [= <-]).
      rewrite (Hhas db) by eauto. eauto.
    - rewrite (started_without_admin pw db E). eexists. split.
      + cbn [users with_users]. apply in_or_app. right. left. reflexivity.
      + reflexivity. }
  split; [apply Hhas; exact Hafter|]. split; [exact Hafter|].
  split; [intros H; apply Hhas; exact H|].
  destruct (existsb (fun u => sql_eq_text (User.username u) (Some "admin"))
                    (users db)) eqn:E.
  - apply existsb_exists in E as (u & Hu & E).
    apply sql_eq_text_true in E as (s & E & [= <-]).
    rewrite (Hhas db) by eauto. repeat split; reflexivity.
  - rewrite (started_without_admin pw db E). repeat split; reflexivity.
Qed.

(** ** The client's endpoint normalisation *)

Lemma string_app_cons (x : ascii) (a b : string) :
  (String x a ++ b = String x (a ++ b))%string.
Proof. reflexivity. Qed.

Lemma string_app_assoc (a b c : string) :
  ((a ++ b) ++ c = a ++ b ++ c)%string.
Proof.
  induction a as [|x a IH]; [reflexivity|].
  rewrite !string_app_cons. now rewrite IH.
Qed.

Lemma string_app_empty (a : string) : (a ++ "" = a)%string.
Proof.
  induction a as [|x a IH]; [reflexivity|].
  rewrite string_app_cons. now rewrite IH.
Qed.

Lemma split_on_head_no_sep (sep : ascii) (s : string) (c : ascii) :
  In c (list_ascii_of_string (nth 0 (split_on sep s) EmptyString)) ->
  c <> sep.
Proof.
  induction s as [|x s IH]; [intros []|]. cbn [split_on].
  destruct (Ascii.eqb_spec x sep) as [->|Hx]; [intros []|].
  destruct (split_on sep s) as [|w ws] eqn:E;
    [elim (split_on_nonempty sep s E)|].
  cbn [nth list_ascii_of_string In] in IH |- *.
  intros [<-|H]; [exact Hx|exact (IH H)].
Qed.

Lemma split_on_no_sep (sep : ascii) (w : string) :
  (forall c, In c (list_ascii_of_string w) -> c <> sep) ->
  split_on sep w = [w].
Proof.
  induction w as [|x w IH]; intros H; [reflexivity|].
  rewrite split_on_cons by (apply H; now left).
  rewrite IH by (intros c Hc; apply H; now right). reflexivity.
Qed.

Lemma ends_with_slash_app (p : string) : ends_with_slash (p ++ "/") = true.
Proof.
  induction p as [|c p IH]; [reflexivity|].
  change (String c p ++ "/")%string with (String c (p ++ "/")).
  destruct p as [|d p]; [reflexivity|]. exact IH.
Qed.

Lemma in_string_app (a b : string) (c : ascii) :
  In c (list_ascii_of_string (a ++ b)) ->
  In c (list_ascii_of_string a) \/ In c (list_ascii_of_string b).
Proof.
  induction a as [|x a IH]; [now right|].
  rewrite string_app_cons. cbn [list_ascii_of_string In].
  intros [H|H]; [now left; left|].
  destruct (IH H); [left; now right|now right].
Qed.

(** X20. The endpoint [api.fetch] requests always has a path (the part
    before the first question mark) that ends with a slash, and
    normalising is idempotent: an endpoint whose path already ends with a
    slash is requested as it is. *)
Theorem normalizedEndpoint_ends_path_with_slash (endpoint : string) :
  ends_with_slash
    (nth 0 (split_on "?" (normalizedEndpoint endpoint)) EmptyString) = true /\
  normalizedEndpoint (normalizedEndpoint endpoint)
  = normalizedEndpoint endpoint /\
  (ends_with_slash (nth 0 (split_on "?" endpoint) EmptyString) = true ->
   normalizedEndpoint endpoint = endpoint).
Proof.
  assert (H1 : ends_with_slash
                 (nth 0 (split_on "?" (normalizedEndpoint endpoint))
                      EmptyString) = true).
  { unfold normalizedEndpoint.
    pose proof (split_on_head_no_sep "?" endpoint) as Hpath.
    set (path := nth 0 (split_on "?" endpoint) EmptyString) in *.
    destruct (ends_with_slash path) eqn:E; [exact E|].
    assert (Hslash : forall c, In c (list_ascii_of_string (path ++ "/")) ->
                               c <> "?"%char).
    { intros c Hc. apply in_string_app in Hc as [Hc|Hc]; [exact (Hpath c Hc)|].
      destruct Hc as [<-|[]]. discriminate. }
    destruct (js_truthy (nth_error (split_on "?" endpoint) 1)).
    - rewrite <- string_app_assoc.
      change ("?" ++ default "" (nth_error (split_on "?" endpoint) 1))%string
        with (String "?" (default "" (nth_error (split_on "?" endpoint) 1))).
      rewrite (split_on_word "?" _ _ Hslash). apply ends_with_slash_app.
    - rewrite <- string_app_assoc, string_app_empty.
      rewrite (split_on_no_sep "?" _ Hslash). apply ends_with_slash_app. }
  split; [exact H1|].
  split; [unfold normalizedEndpoint at 1; rewrite H1; reflexivity|].
  intros H. unfold normalizedEndpoint. rewrite H. reflexivity.
Qed.

(** X21. When a slash has to be added, only the text between the first
    and the second question mark survives as the query: a second question
    mark and everything after it are dropped, and an empty query loses its
    question mark. *)
Theorem normalizedEndpoint_keeps_first_query (path rest : string) :
  (forall c, In c (list_ascii_of_string path) -> c <> "?"%char) ->
  ends_with_slash path = false ->
  normalizedEndpoint (path ++ "?" ++ rest) =
  (path ++ "/" ++
     (if String.eqb (nth 0 (split_on "?" rest) EmptyString) ""
      then ""
      else "?" ++ nth 0 (split_on "?" rest) EmptyString))%string.
Proof.
  intros Hpath Hslash. unfold normalizedEndpoint.
  change (path ++ "?" ++ rest)%string with (path ++ String "?" rest)%string.
  rewrite (split_on_word "?" path rest Hpath). cbn [nth nth_error].
  rewrite Hslash.
  destruct (split_on "?" rest) as [|q qs] eqn:E;
    [elim (split_on_nonempty "?" rest E)|].
  cbn [nth js_truthy default]. destruct (String.eqb q ""); reflexivity.
Qed.

Lemma normalizedEndpoint_keeps_first_query_witness :
  normalizedEndpoint ("/api/organs" ++ "?" ++ "type=KIDNEY?x=1") =
  "/api/organs/?type=KIDNEY".
Proof.
  rewrite normalizedEndpoint_keeps_first_query;
    [reflexivity| |reflexivity].
  intros c Hc. cbn in Hc.
  repeat (destruct Hc as [<-|Hc]; [discriminate|]). destruct Hc.
Defined.

(** ** The seed script's placeholder conversion *)

Lemma substring_prefix (pre rest : string) :
  substring 0 (String.length pre) (pre ++ rest) = pre.
Proof.
  induction pre as [|c pre IH]; [destruct rest; reflexivity|].
  rewrite string_app_cons. cbn [String.length substring]. now rewrite IH.
Qed.

Lemma count_placeholders_app (a b : string) :
  count_placeholders (a ++ b)
  = (count_placeholders a + count_placeholders b)%nat.
Proof.
  induction a as [|c a IH]; [reflexivity|].
  rewrite string_app_cons. cbn [count_placeholders].
  destruct (Ascii.eqb c "?"); rewrite IH; reflexivity.
Qed.

Lemma string_length_app (a b : string) :
  String.length (a ++ b) = (String.length a + String.length b)%nat.
Proof.
  induction a as [|c a IH]; [reflexivity|].
  rewrite string_app_cons. cbn [String.length]. now rewrite IH.
Qed.

Lemma replace_placeholders_numbers (rest pre : string) :
  replace_placeholders (pre ++ rest) (String.length pre) rest =
  number_from (count_placeholders pre + 1) rest.
Proof.
  revert pre. induction rest as [|c rest IH]; intros pre; [reflexivity|].
  cbn [replace_placeholders number_from].
  assert (E : (pre ++ String c rest = (pre ++ String c "") ++ rest)%string)
    by (rewrite string_app_assoc; reflexivity).
  assert (L : S (String.length pre) = String.length (pre ++ String c ""))
    by (rewrite string_length_app; cbn [String.length]; lia).
  replace (replace_placeholders (pre ++ String c rest)
                                (S (String.length pre)) rest)
    with (replace_placeholders ((pre ++ String c "") ++ rest)
                               (String.length (pre ++ String c "")) rest)
    by (rewrite <- L, <- E; reflexivity).
  rewrite IH, count_placeholders_app.
  unfold placeholder. rewrite substring_prefix.
  cbn [count_placeholders]. destruct (Ascii.eqb c "?").
  - rewrite string_app_assoc.
    replace (count_placeholders pre + 1 + 1)%nat
      with (S (count_placeholders pre + 1)) by lia. reflexivity.
  - rewrite Nat.add_0_r. reflexivity.
Qed.

Lemma number_from_app (k : nat) (a b : string) :
  number_from k (a ++ b) =
  (number_from k a ++ number_from (k + count_placeholders a) b)%string.
Proof.
  revert k. induction a as [|c a IH]; intros k.
  - cbn [number_from count_placeholders]. now rewrite Nat.add_0_r.
  - rewrite string_app_cons. cbn [number_from count_placeholders].
    destruct (Ascii.eqb c "?").
    + rewrite IH, !string_app_assoc.
      replace (S k + count_placeholders a)%nat
        with (k + S (count_placeholders a))%nat by lia. reflexivity.
    + rewrite IH, string_app_cons. reflexivity.
Qed.

(** X22. The conversion numbers the question marks [$1], [$2], ... from
    left to right and copies every other character: counting the question
    marks before each offset, as the callback does, gives the same text
    as one pass with a running counter, and converting a concatenation
    continues the numbering where the first part stopped. *)
Theorem pgSql_numbers_in_order (a b : string) :
  pgSql a = number_from 1 a /\
  pgSql (a ++ b) = (pgSql a ++ number_from (count_placeholders a + 1) b)%string.
Proof.
  assert (H : forall s, pgSql s = number_from 1 s)
    by (intros s; exact (replace_placeholders_numbers s "")).
  split; [apply H|]. rewrite !H, number_from_app.
  do 2 f_equal. lia.
Qed.

Lemma count_placeholders_digits (d : Decimal.uint) :
  count_placeholders (NilEmpty.string_of_uint d) = O.
Proof. induction d; cbn; try reflexivity; exact IHd. Qed.

Lemma count_placeholders_number_from (k : nat) (s : string) :
  count_placeholders (number_from k s) = O.
Proof.
  revert k. induction s as [|c s IH]; intros k; [reflexivity|].
  cbn [number_from]. destruct (Ascii.eqb c "?") eqn:E.
  - rewrite !count_placeholders_app. unfold decimal.
    rewrite count_placeholders_digits, IH. reflexivity.
  - cbn [count_placeholders]. rewrite E. apply IH.
Qed.

(** X23. The converted text holds no question mark, and a text without
    question marks is converted to itself. *)
Theorem pgSql_leaves_no_placeholder (sql : string) :
  count_placeholders (pgSql sql) = O /\
  (count_placeholders sql = O -> pgSql sql = sql).
Proof.
  rewrite (replace_placeholders_numbers sql "" : pgSql sql = number_from 1 sql).
  split; [apply count_placeholders_number_from|].
  generalize 1%nat. induction sql as [|c s IH]; intros k; [reflexivity|].
  cbn [count_placeholders number_from].
  destruct (Ascii.eqb c "?"); [discriminate|].
  intros H. now rewrite IH.
Qed.

(** ** The seed script *)

Ltac decide_literals :=
  repeat match goal with
         | |- context [bool_decide (?a = ?b)] =>
             let v := eval vm_compute in (bool_decide (a = b)) in
             change (bool_decide (a = b)) with v
         end.

Ltac decide_ids :=
  repeat match goal with
         | |- context [bool_decide (?a = ?b)] =>
             first [rewrite (bool_decide_eq_true_2 (a = b)) by lia
                   |rewrite (bool_decide_eq_false_2 (a = b)) by lia]
         end.

(** The store a seeding leaves: the six users, two organs and two
    requests of the script, with ids that continue the sequences of the
    store it ran on. *)
Lemma seed_runs (adminPassword userPassword t1 t2 t3 t4 : string) (db : Db) :
  seeded adminPassword userPassword t1 t2 t3 t4 db =
  let u := Z.max (seq_users db) 0 in
  let o := Z.max (seq_organs db) 0 in
  let q := Z.max (seq_organ_requests db) 0 in
  mkDb
    [ User.mk (u + 1) (Some "admin") (Some adminPassword)
              (Some "System Admin") (Some 35) (Some "Male") (Some "O+")
              (Some "1234567890") (Some "ADMIN");
      User.mk (u + 2) (Some "donor1") (Some userPassword) (Some "John Doe")
              (Some 28) (Some "Male") (Some "O-") (Some "9876543210")
              (Some "DONOR");
      User.mk (u + 3) (Some "donor2") (Some userPassword) (Some "Jane Smith")
              (Some 32) (Some "Female") (Some "A+") (Some "5556667777")
              (Some "DONOR");
      User.mk (u + 4) (Some "recipient1") (Some userPassword)
              (Some "Alice Brown") (Some 45) (Some "Female") (Some "AB+")
              (Some "1112223333") (Some "RECIPIENT");
      User.mk (u + 5) (Some "recipient2") (Some userPassword)
              (Some "Bob Wilson") (Some 50) (Some "Male") (Some "B-")
              (Some "4445556666") (Some "RECIPIENT");
      User.mk (u + 6) (Some "sravan13") (Some userPassword)
              (Some "Sravan Reddy") (Some 25) (Some "Male") (Some "B+")
              (Some "9988776655") (Some "DONOR") ]
    [ Organ.mk (o + 1) (Some "KIDNEY") (Some "O-") (Some (u + 2))
               (Some "AVAILABLE") (Some t1);
      Organ.mk (o + 2) (Some "LIVER") (Some "A+") (Some (u + 3))
               (Some "AVAILABLE") (Some t2) ]
    [ Request.mk (q + 1) (Some (u + 4)) (Some "KIDNEY") (Some "AB+")
                 (Some "CRITICAL") (Some "PENDING") (Some t3) None;
      Request.mk (q + 2) (Some (u + 5)) (Some "LIVER") (Some "B-")
                 (Some "MEDIUM") (Some "PENDING") (Some t4) None ]
    []
    (u + 6) (o + 2) (q + 2) (seq_matches db).
Proof.
  destruct db as [us os qs ms su so sq sm].
  unfold seeded, seed, bind, delete_all_matches, delete_all_organ_requests,
    delete_all_organs, delete_all_users, insert_user, insert_organ,
    insert_organ_request, statement, ret.
  repeat (progress (cbn -[next_rowid Z.max Z.add]; decide_literals)).
  cbv zeta.
  set (u := Z.max su 0). set (o := Z.max so 0). set (q := Z.max sq 0).
  replace (next_rowid su []) with (u + 1)
    by (unfold next_rowid, max_id; cbn [foldr]; lia).
  replace (next_rowid (u + 1) [u + 1]) with (u + 2)
    by (unfold next_rowid, max_id; cbn [foldr]; lia).
  replace (next_rowid (u + 2) [u + 1; u + 2]) with (u + 3)
    by (unfold next_rowid, max_id; cbn [foldr]; lia).
  replace (next_rowid (u + 3) [u + 1; u + 2; u + 3]) with (u + 4)
    by (unfold next_rowid, max_id; cbn [foldr]; lia).
  replace (next_rowid (u + 4) [u + 1; u + 2; u + 3; u + 4]) with (u + 5)
    by (unfold next_rowid, max_id; cbn [foldr]; lia).
  replace (next_rowid (u + 5) [u + 1; u + 2; u + 3; u + 4; u + 5])
    with (u + 6) by (unfold next_rowid, max_id; cbn [foldr]; lia).
  replace (next_rowid so []) with (o + 1)
    by (unfold next_rowid, max_id; cbn [foldr]; lia).
  replace (next_rowid (o + 1) [o + 1]) with (o + 2)
    by (unfold next_rowid, max_id; cbn [foldr]; lia).
  replace (next_rowid sq []) with (q + 1)
    by (unfold next_rowid, max_id; cbn [foldr]; lia).
  replace (next_rowid (q + 1) [q + 1]) with (q + 2)
    by (unfold next_rowid, max_id; cbn [foldr]; lia).
  reflexivity.
Qed.

(** X24. Seeding works on any store: whatever the tables held, afterwards
    there is no match, every user and organ id is above the old sequence
    (deleting the rows does not restart the numbering), every organ is
    [AVAILABLE] and belongs to a seeded donor, every request is [PENDING]
    and belongs to a seeded recipient; asking for suggestions then gives
    the O- kidney for the AB+ kidney request and nothing for the B- liver
    request, whose only candidate comes from an A+ donor. *)
Theorem seed_store_is_consistent
    (adminPassword userPassword t1 t2 t3 t4 now : string) (db : Db) :
  let s := seeded adminPassword userPassword t1 t2 t3 t4 db in
  let q := Z.max (seq_organ_requests db) 0 in
  matches s = [] /\
  (forall x, In x (users s) -> seq_users db < User.id x) /\
  (forall o, In o (organs s) ->
     seq_organs db < Organ.id o /\
     Organ.availability_status o = Some "AVAILABLE" /\
     exists d, In d (users s) /\ Organ.donor_id o = Some (User.id d) /\
               User.role d = Some "DONOR") /\
  (forall r, In r (organ_requests s) ->
     Request.status r = Some "PENDING" /\
     exists x, In x (users s) /\ Request.recipient_id r = Some (User.id x) /\
               User.role x = Some "RECIPIENT") /\
  (exists kidney,
     fst (step (Event now None (Suggest (Some (q + 1)))) s) =
       Res 200 (JsonSuggestions [(kidney, Some "John Doe", Some "O-")]) /\
     In kidney (organs s) /\ Organ.organ_type kidney = Some "KIDNEY") /\
  fst (step (Event now None (Suggest (Some (q + 2)))) s) =
    Res 200 (JsonSuggestions []).
Proof.
  cbv zeta. rewrite seed_runs. cbv zeta.
  split; [reflexivity|]. split; [|split; [|split; [|split]]].
  - intros x H. cbn [users In] in H.
    repeat (destruct H as [<-|H]; [cbn [User.id]; lia|]). destruct H.
  - intros o H. cbn [organs In] in H.
    destruct H as [<-|[<-|[]]]; cbn [Organ.id Organ.availability_status
                                     Organ.donor_id]
    ; (split; [lia|]); (split; [reflexivity|]); eexists; cbn [users].
    + split; [right; left; reflexivity|]. split; reflexivity.
    + split; [right; right; left; reflexivity|]. split; reflexivity.
  - intros r H. cbn [organ_requests In] in H.
    destruct H as [<-|[<-|[]]]; cbn [Request.status Request.recipient_id];
      (split; [reflexivity|]); eexists; cbn [users].
    + split; [do 3 right; left; reflexivity|]. split; reflexivity.
    + split; [do 4 right; left; reflexivity|]. split; reflexivity.
  - eexists. rewrite suggest_runs.
    unfold find_request, available_organs, sql_eq_id, sql_eq_int, sql_eq_text.
    cbn [organ_requests organs users List.filter Request.id flat_map map
         Organ.organ_type Organ.availability_status Organ.donor_id User.id
         Request.organ_type app andb].
    decide_ids. cbn [head]. decide_literals.
    cbn [andb List.filter map app User.id User.name User.blood_group].
    decide_ids. cbn [map app]. split; [reflexivity|].
    split; [left; reflexivity|reflexivity].
  - rewrite suggest_runs.
    unfold find_request, available_organs, sql_eq_id, sql_eq_int, sql_eq_text.
    cbn [organ_requests organs users List.filter Request.id flat_map map
         Organ.organ_type Organ.availability_status Organ.donor_id User.id
         Request.organ_type app andb].
    decide_ids. cbn [head]. decide_literals.
    cbn [andb List.filter map app User.id User.name User.blood_group].
    decide_ids. cbn [map app]. reflexivity.
Qed.

(** ** From a suggestion to a match *)

(** X25. Approving a suggestion on the store it was computed from links
    real rows: when the suggestion route returns an organ for a request
    and the body [handleApproveMatch] builds for them is posted to that
    same store (nothing has changed it in between) with no storage fault,
    the allocation succeeds, turns that organ [MATCHED] and the request
    [APPROVED], and records a match whose organ type is the organ's, whose
    donor is the user the organ belongs to and whose recipient is the
    request's. Nothing is said of a suggestion approved after the store
    has changed. *)
Theorem approving_a_suggestion_links_real_rows (now now' : string)
    (requestId : int) (db : Db) (rows : list (Organ.row * text * text))
    (organ : Organ.row) (donor_name donor_blood_group : text)
    (request : Request.row) :
  fst (step (Event now None (Suggest requestId)) db) =
    Res 200 (JsonSuggestions rows) ->
  In (organ, donor_name, donor_blood_group) rows ->
  find_request requestId db = Some request ->
  let out :=
    step (Event now' None
            (handleApproveMatch (organ, donor_name, donor_blood_group)
                                request)) db in
  fst out = Res 200 JsonSuccess /\
  organ_matched (Organ.id organ) (snd out) /\
  (exists o, In o (organs (snd out)) /\ Organ.id o = Organ.id organ) /\
  request_approved (Request.id request) (snd out) /\
  (exists r, In r (organ_requests (snd out)) /\
             Request.id r = Request.id request) /\
  exists m,
    In m (matches (snd out)) /\
    Match.organ_id m = Some (Organ.id organ) /\
    Match.request_id m = Some (Request.id request) /\
    Match.organ_type m = Organ.organ_type organ /\
    Match.recipient_id m = Request.recipient_id request /\
    exists d, In d (users (snd out)) /\
              Match.donor_id m = Some (User.id d) /\
              User.name d = donor_name /\
              User.blood_group d = donor_blood_group.
Proof.
  intros Hs Hin Hreq. rewrite suggest_runs, Hreq in Hs.
  destruct (js_filter _ _) as [e|kept] eqn:Ef; [discriminate Hs|].
  injection Hs as <-.
  apply (js_filter_kept _ _ _ Ef) in Hin as [Hin _].
  apply in_available_organs in Hin as (Ho & Ht & _ & d & Hd & Ed & En & Eg).
  apply sql_eq_text_true in Ht as (t & Ht1 & Ht2).
  apply head_filter_some in Hreq as [Hr Er]. apply sql_eq_id_true in Er.
  cbv zeta. unfold handleApproveMatch. cbn [fst snd]. rewrite allocate_runs.
  cbn [fst snd users organs organ_requests matches].
  split; [reflexivity|]. split; [|split; [|split; [|split]]].
  - intros o Hin. apply in_update_where in Hin as (o0 & _ & ->).
    destruct (sql_eq_id (Organ.id o0) (Some (Organ.id organ))) eqn:E;
      [reflexivity|].
    intros Hid. apply sql_eq_id_false_iff in E. contradiction.
  - exists (Organ.set_availability_status (Some "MATCHED") organ).
    split; [|reflexivity]. apply in_update_where. exists organ.
    split; [exact Ho|].
    rewrite (proj2 (sql_eq_id_true _ _) eq_refl). reflexivity.
  - intros r Hin. apply in_update_where in Hin as (r0 & _ & ->).
    destruct (sql_eq_id (Request.id r0) (Some (Request.id request))) eqn:E;
      [split; reflexivity|].
    intros Hid. apply sql_eq_id_false_iff in E. contradiction.
  - exists (Request.set_status_note (Some "APPROVED")
              (Some "Matched with compatible donor") request).
    split; [|reflexivity]. apply in_update_where. exists request.
    split; [exact Hr|].
    rewrite (proj2 (sql_eq_id_true _ _) eq_refl). reflexivity.
  - eexists. split; [apply in_or_app; right; left; reflexivity|].
    cbn [Match.organ_id Match.request_id Match.organ_type Match.recipient_id
         Match.donor_id].
    split; [reflexivity|]. split; [reflexivity|].
    split; [congruence|]. split; [reflexivity|]. eauto.
Qed.

Lemma approving_a_suggestion_links_real_rows_witness :
  exists m,
    In m (matches (snd (step first_approval ward))) /\
    Match.organ_id m = Some 1 /\ Match.request_id m = Some 1 /\
    Match.organ_type m = Some "KIDNEY" /\
    exists d, In d (users (snd (step first_approval ward))) /\
              Match.donor_id m = Some (User.id d) /\
              User.name d = Some "John Doe".
Proof.
  destruct (approving_a_suggestion_links_real_rows
              "2024-05-01 12:00:00" "2024-05-01 12:00:00" (Some 1) ward _
              (Organ.mk 1 (Some "KIDNEY") (Some "O-") (Some 2)
                        (Some "AVAILABLE") (Some "2024-05-01 12:00:00"))
              (Some "John Doe") (Some "O-") _
              eq_refl (or_introl eq_refl) eq_refl)
    as (_ & _ & _ & _ & _ & m & Hm & Ho & Hr & Ht & _ & d & Hd & Ed & En & _).
  exists m. split; [exact Hm|]. split; [exact Ho|]. split; [exact Hr|].
  split; [exact Ht|]. exists d. split; [exact Hd|]. split; [exact Ed|exact En].
Defined.

(** ** Intake through the router *)

(** X26. Intake takes the owner from the token, never from the body, and
    does not look at the caller's role: for any caller whose token
    verifies, [POST /api/organs] stores the organ with the token's id as
    donor and [POST /api/requests] stores the request with the token's id
    as recipient, each under an id above every id of its table. *)
Theorem intake_uses_the_token_id (jwt_verify : string -> option claims)
    (jwt_sign : claims -> string) (bcrypt_compare : text -> text -> bool)
    (now : string) (authorization : option string) (user : claims)
    (organ_type blood_group urgency_level : text) (db : Db) :
  authenticate jwt_verify authorization = Pass user ->
  (exists i,
     api_step jwt_verify jwt_sign bcrypt_compare now None authorization
              (PostOrgans organ_type blood_group) db =
       (Answered (ApiRes 200 (Body (JsonId i))),
        with_organs
          (organs db ++ [Organ.mk i organ_type blood_group (claim_id user)
                                  (Some "AVAILABLE") (Some now)]) i db) /\
     forall o, In o (organs db) -> Organ.id o < i) /\
  (exists i,
     api_step jwt_verify jwt_sign bcrypt_compare now None authorization
              (PostRequests organ_type blood_group urgency_level) db =
       (Answered (ApiRes 200 (Body (JsonId i))),
        with_organ_requests
          (organ_requests db ++
             [Request.mk i (claim_id user) organ_type blood_group
                         urgency_level (Some "PENDING") (Some now) None])
          i db) /\
     forall r, In r (organ_requests db) -> Request.id r < i).
Proof.
  intros Hauth. split; eexists; (split;
    [unfold api_step, route, guarded; rewrite Hauth; reflexivity|]).
  - intros o Ho. apply next_rowid_fresh, in_map, Ho.
  - intros r Hr. apply next_rowid_fresh, in_map, Hr.
Qed.

Lemma intake_uses_the_token_id_witness :
  exists i,
    api_step (fun _ => Some (Claims (Some 4) (Some "recipient2")
                                    (Some "RECIPIENT")))
             (fun _ => "t") (fun _ _ => false)
             "2024-05-02 09:00:00" None (Some "Bearer t")
             (PostOrgans (Some "LIVER") (Some "A+")) ward =
      (Answered (ApiRes 200 (Body (JsonId i))),
       with_organs
         (organs ward ++ [Organ.mk i (Some "LIVER") (Some "A+") (Some 4)
                                   (Some "AVAILABLE")
                                   (Some "2024-05-02 09:00:00")]) i ward) /\
    forall o, In o (organs ward) -> Organ.id o < i.
Proof.
  exact (proj1 (intake_uses_the_token_id
                  (fun _ => Some (Claims (Some 4) (Some "recipient2")
                                         (Some "RECIPIENT")))
                  (fun _ => "t") (fun _ _ => false)
                  "2024-05-02 09:00:00" (Some "Bearer t")
                  (Claims (Some 4) (Some "recipient2") (Some "RECIPIENT"))
                  (Some "LIVER") (Some "A+") None ward eq_refl)).
Defined.
